(** * ZotWatch: candidate filtering and ranking pipeline

    A shallow embedding of the deduplication engine ([dedupe.py]), the
    similarity index wrapper ([faiss_store.py]), the profile builder's
    guard ([build_profile.py]), the ranker ([score_rank.py]) and the
    post-filters of the watch cycle ([cli.py]), with the properties the
    specification states about them.

    Conventions.
    - Python [str] is [string]; the text functions ([lower], [strip],
      whitespace collapsing) are written out for ASCII text.
    - Python [float] is the kernel's binary64 [float]; comparisons are the
      IEEE ones ([<=?], [<?], [=?]), so NaN behaves as in Python.
    - [dict] is [gmap], [set] is [gset].
    - Libraries outside the repository (rapidfuzz, numpy's [log1p], the
      sentence-transformers model, faiss' search) are Section variables;
      so is what [list.sort] does to a list with a NaN key. *)

From Stdlib Require Import ZArith List Bool Ascii String Floats Permutation Sorted Lia.
From stdpp Require Import gmap strings list.

Set Warnings "-inexact-float".

(** ** Python text helpers (ASCII) *)

Module PyStr.

(** [str.isspace] on ASCII: TAB..CR and FS..space. *)
Definition is_space (c : ascii) : bool :=
  let n := nat_of_ascii c in
  ((9 <=? n)%nat && (n <=? 13)%nat) || ((28 <=? n)%nat && (n <=? 32)%nat).

Definition lower_char (c : ascii) : ascii :=
  let n := nat_of_ascii c in
  if ((65 <=? n)%nat && (n <=? 90)%nat) then ascii_of_nat (n + 32) else c.

(** [s.lower()] *)
Fixpoint lower (s : string) : string :=
  match s with
  | EmptyString => EmptyString
  | String c s' => String (lower_char c) (lower s')
  end.

Fixpoint lstrip (s : string) : string :=
  match s with
  | EmptyString => EmptyString
  | String c s' => if is_space c then lstrip s' else s
  end.

Fixpoint rstrip (s : string) : string :=
  match s with
  | EmptyString => EmptyString
  | String c s' =>
      match rstrip s' with
      | EmptyString => if is_space c then EmptyString else String c EmptyString
      | r => String c r
      end
  end.

(** [s.strip()] *)
Definition strip (s : string) : string := rstrip (lstrip s).

(** [re.sub(r"\s+", " ", s)]: every maximal run of whitespace becomes one
    space. [in_run] tells that the previous character was whitespace. *)
Fixpoint collapse_from (in_run : bool) (s : string) : string :=
  match s with
  | EmptyString => EmptyString
  | String c s' =>
      if is_space c
      then (if in_run then collapse_from true s'
            else String " "%char (collapse_from true s'))
      else String c (collapse_from false s')
  end.

Definition collapse_whitespace (s : string) : string := collapse_from false s.

(** Truth value of a [str]: the empty string is false. *)
Definition truthy (s : string) : bool :=
  match s with EmptyString => false | _ => true end.

(** Truth value of an [Optional[str]]. *)
Definition truthy_opt (o : option string) : bool :=
  match o with Some s => truthy s | None => false end.

(** [sep.join(parts)] *)
Fixpoint join (sep : string) (parts : list string) : string :=
  match parts with
  | [] => EmptyString
  | [p] => p
  | p :: rest => (p ++ sep ++ join sep rest)%string
  end.

End PyStr.

(** ** Order facts on binary64 floats

    The comparisons of [float] are specified through [SFcompare] on the
    decoded value; the facts the ranker needs are derived from that
    specification. *)

Module FloatOrder.

Open Scope float_scope.

Definition sf_is_nan (f : spec_float) : bool :=
  match f with S754_nan => true | _ => false end.

Ltac sf_cases :=
  repeat match goal with
  | f : spec_float |- _ => destruct f as [[]|[]| |[] ? ?]
  end;
  cbn [SFcompare sf_is_nan] in *;
  repeat match goal with
  | |- context [Z.compare ?a ?b] => destruct (Z.compare_spec a b)
  | H : context [Z.compare ?a ?b] |- _ => destruct (Z.compare_spec a b)
  | |- context [Pos.compare_cont Eq ?a ?b] =>
      change (Pos.compare_cont Eq a b) with (Pos.compare a b);
      destruct (Pos.compare_spec a b)
  | H : context [Pos.compare_cont Eq ?a ?b] |- _ =>
      change (Pos.compare_cont Eq a b) with (Pos.compare a b) in H;
      destruct (Pos.compare_spec a b)
  end;
  cbn [CompOpp] in *;
  try congruence; try lia.

Lemma SFcompare_leb_trans (a b c : spec_float) :
  SFleb a b = true -> SFleb b c = true -> SFleb a c = true.
Proof. unfold SFleb. sf_cases. Qed.

Lemma SFcompare_ltb_leb (a b : spec_float) :
  SFltb a b = true -> SFleb a b = true.
Proof. unfold SFltb, SFleb. destruct (SFcompare a b) as [[]|]; congruence. Qed.



Lemma SFcompare_ltb_not_leb (a b : spec_float) :
  SFltb a b = true -> SFleb b a = false.
Proof. unfold SFltb, SFleb. sf_cases. Qed.

Lemma SFcompare_eqb_leb (a b : spec_float) :
  SFeqb a b = (SFleb a b && SFleb b a)%bool.
Proof. unfold SFeqb, SFleb. sf_cases. Qed.

Lemma SFcompare_leb_ltb_trans (a b c : spec_float) :
  SFleb a b = true -> SFltb b c = true -> SFltb a c = true.
Proof. unfold SFleb, SFltb. sf_cases. Qed.



Lemma leb_trans (x y z : float) :
  (x <=? y) = true -> (y <=? z) = true -> (x <=? z) = true.
Proof. rewrite !FloatAxioms.leb_spec. apply SFcompare_leb_trans. Qed.

Lemma ltb_leb (x y : float) : (x <? y) = true -> (x <=? y) = true.
Proof. rewrite FloatAxioms.ltb_spec, FloatAxioms.leb_spec. apply SFcompare_ltb_leb. Qed.


Lemma ltb_not_leb (x y : float) : (x <? y) = true -> (y <=? x) = false.
Proof. rewrite FloatAxioms.ltb_spec, FloatAxioms.leb_spec. apply SFcompare_ltb_not_leb. Qed.

Lemma eqb_leb (x y : float) : (x =? y) = ((x <=? y) && (y <=? x))%bool.
Proof. rewrite FloatAxioms.eqb_spec, !FloatAxioms.leb_spec. apply SFcompare_eqb_leb. Qed.

Lemma leb_ltb_trans (x y z : float) :
  (x <=? y) = true -> (y <? z) = true -> (x <? z) = true.
Proof. rewrite FloatAxioms.leb_spec, !FloatAxioms.ltb_spec. apply SFcompare_leb_ltb_trans. Qed.


Lemma leb_refl (x : float) : is_nan x = false -> (x <=? x) = true.
Proof.
  intros Hx. pose proof (eqb_leb x x) as H. unfold is_nan in Hx.
  destruct (x =? x); [|discriminate]. symmetry in H.
  now apply andb_true_iff in H.
Qed.


End FloatOrder.

(** ** Data model ([models.py]) *)

(** Values of a [Dict[str, object]] payload; the pipeline never looks
    inside them. *)
Inductive pyobject : Type :=
  | PyNone
  | PyBool (b : bool)
  | PyInt (z : Z)
  | PyFloat (f : float)
  | PyStr (s : string).

(** [datetime]: the wall-clock reading in microseconds since the epoch, and
    the UTC offset of its [tzinfo] in microseconds ([None] for a naive
    value). *)
Record datetime : Type := mk_datetime {
  wall_us : Z;
  tzinfo : option Z
}.

Module ZoteroItem.
Record t : Type := mk {
  key : string;
  version : Z;
  title : string;
  abstract : option string;
  creators : list string;
  tags : list string;
  collections : list string;
  year : option Z;
  doi : option string;
  url : option string;
  raw : gmap string pyobject
}.

Definition content_for_embedding (self : t) : string :=
  let parts :=
    [title self]
    ++ (if PyStr.truthy_opt (abstract self) then [default EmptyString (abstract self)] else [])
    ++ (match creators self with [] => [] | cs => [PyStr.join "; " cs] end)
    ++ (match tags self with [] => [] | ts => [PyStr.join "; " ts] end) in
  PyStr.join (String (ascii_of_nat 10) EmptyString) (List.filter PyStr.truthy parts).
End ZoteroItem.

Module CandidateWork.
Record t : Type := mk {
  source : string;
  identifier : string;
  title : string;
  abstract : option string;
  authors : list string;
  doi : option string;
  url : option string;
  published : option datetime;
  venue : option string;
  metrics : gmap string float;
  extra : gmap string pyobject
}.

Definition content_for_embedding (self : t) : string :=
  let parts :=
    [title self]
    ++ (if PyStr.truthy_opt (abstract self) then [default EmptyString (abstract self)] else [])
    ++ (match authors self with [] => [] | au => [PyStr.join "; " au] end) in
  PyStr.join (String (ascii_of_nat 10) EmptyString) (List.filter PyStr.truthy parts).
End CandidateWork.

(** [class RankedWork(CandidateWork)]: the eleven inherited fields followed
    by the nine scoring fields. *)
Module RankedWork.
Record t : Type := mk {
  source : string;
  identifier : string;
  title : string;
  abstract : option string;
  authors : list string;
  doi : option string;
  url : option string;
  published : option datetime;
  venue : option string;
  metrics : gmap string float;
  extra : gmap string pyobject;
  score : float;
  similarity : float;
  recency_score : float;
  metric_score : float;
  author_bonus : float;
  venue_bonus : float;
  journal_quality : float;
  journal_sjr : option float;
  label : string
}.

(** The inherited part of a ranked work, read field by field. *)
Definition candidate_fields (r : t) : CandidateWork.t :=
  CandidateWork.mk (source r) (identifier r) (title r) (abstract r) (authors r)
    (doi r) (url r) (published r) (venue r) (metrics r) (extra r).
End RankedWork.

(** Exceptions the modelled code raises. *)
Inductive exn : Type :=
  | ValueError (msg : string)
  | RuntimeError (msg : string).

Inductive result (A : Type) : Type :=
  | Ok (a : A)
  | Raise (e : exn).
Arguments Ok {A} a.
Arguments Raise {A} e.

(** ** Dedupe engine ([dedupe.py]) *)

Module Dedupe.

Open Scope float_scope.

(** [_normalize_identifier]: [(value or "").lower().strip()] *)
Definition _normalize_identifier (value : string) : string :=
  PyStr.strip (PyStr.lower value).

(** [_normalize_title]: [re.sub(r"\s+", " ", title or "").strip().lower()] *)
Definition _normalize_title (title : string) : string :=
  PyStr.lower (PyStr.strip (PyStr.collapse_whitespace title)).

Section Engine.

(** [rapidfuzz.fuzz.token_set_ratio], a score between 0 and 100. *)
Variable token_set_ratio : string -> string -> float.

(** [_is_title_in_list] *)
Fixpoint _is_title_in_list (title : string) (title_list : list string)
    (threshold : float) : bool :=
  match title_list with
  | [] => false
  | existing :: rest =>
      if negb (PyStr.truthy existing) then _is_title_in_list title rest threshold
      else
        let score := token_set_ratio title existing / 100 in
        if threshold <=? score then true
        else _is_title_in_list title rest threshold
  end.

(** The state [__init__] builds from the stored items. *)
Record DedupeEngine : Type := mk_engine {
  title_threshold : float;
  existing_doi : gset string;
  existing_ids : gset string;
  existing_titles : list string
}.

(** One round of the loop of [_load_existing]. *)
Definition load_item (self : DedupeEngine) (item : ZoteroItem.t) : DedupeEngine :=
  let self1 :=
    if PyStr.truthy_opt (ZoteroItem.doi item)
    then mk_engine (title_threshold self)
           ({[ _normalize_identifier (default EmptyString (ZoteroItem.doi item)) ]}
              ∪ existing_doi self)
           (existing_ids self) (existing_titles self)
    else self in
  let self2 :=
    if PyStr.truthy_opt (ZoteroItem.url item)
    then mk_engine (title_threshold self1) (existing_doi self1)
           ({[ _normalize_identifier (default EmptyString (ZoteroItem.url item)) ]}
              ∪ existing_ids self1)
           (existing_titles self1)
    else self1 in
  mk_engine (title_threshold self2) (existing_doi self2) (existing_ids self2)
    (existing_titles self2 ++ [_normalize_title (ZoteroItem.title item)]).

(** [DedupeEngine(storage, title_threshold)], [items] being what
    [storage.iter_items()] yields. *)
Definition new_engine (items : list ZoteroItem.t) (threshold : float) : DedupeEngine :=
  fold_left load_item items (mk_engine threshold ∅ ∅ []).

(** [DedupeEngine(storage)] with the default threshold. *)
Definition default_engine (items : list ZoteroItem.t) : DedupeEngine :=
  new_engine items 0.9.

Variable self : DedupeEngine.

Definition _is_title_duplicate (title : string) : bool :=
  _is_title_in_list title (existing_titles self) (title_threshold self).

(** The locals of [filter] that the loop updates. *)
Record scratch : Type := mk_scratch {
  deduped : list CandidateWork.t;
  candidate_titles : list string;
  seen_keys : gset string
}.

(** [key], [doi] and [title] as the loop body computes them. *)
Definition key_of (work : CandidateWork.t) : string :=
  _normalize_identifier (CandidateWork.identifier work).

Definition doi_of (work : CandidateWork.t) : option string :=
  if PyStr.truthy_opt (CandidateWork.doi work)
  then Some (_normalize_identifier (default EmptyString (CandidateWork.doi work)))
  else None.

Definition title_of (work : CandidateWork.t) : string :=
  _normalize_title (CandidateWork.title work).

(** The four [continue] tests of the loop body, in order. *)
Definition skipped (st : scratch) (work : CandidateWork.t) : bool :=
  let key := key_of work in
  let doi := doi_of work in
  let title := title_of work in
  if PyStr.truthy_opt doi && bool_decide (default EmptyString doi ∈ existing_doi self) then true
  else if PyStr.truthy_opt doi && bool_decide (default EmptyString doi ∈ seen_keys st) then true
  else if bool_decide (key ∈ existing_ids self) || bool_decide (key ∈ seen_keys st) then true
  else if _is_title_duplicate title
          || _is_title_in_list title (candidate_titles st) (title_threshold self) then true
  else false.

(** What the end of the loop body records for an accepted candidate. *)
Definition record_work (st : scratch) (work : CandidateWork.t) : scratch :=
  let key := key_of work in
  let doi := doi_of work in
  mk_scratch (deduped st ++ [work])
    (candidate_titles st ++ [title_of work])
    (if PyStr.truthy_opt doi
     then {[ default EmptyString doi ]} ∪ ({[ key ]} ∪ seen_keys st)
     else {[ key ]} ∪ seen_keys st).

Definition filter_step (st : scratch) (work : CandidateWork.t) : scratch :=
  if skipped st work then st else record_work st work.

Definition filter_from (st : scratch) (candidates : list CandidateWork.t) : scratch :=
  fold_left filter_step candidates st.

Definition empty_scratch : scratch := mk_scratch [] [] ∅.

(** [DedupeEngine.filter] *)
Definition filter (candidates : list CandidateWork.t) : list CandidateWork.t :=
  deduped (filter_from empty_scratch candidates).


(** *** The loop as a recursion on the remaining candidates *)

(** The candidates the loop appends to [deduped] when started in [st]. *)
Fixpoint survivors (st : scratch) (candidates : list CandidateWork.t)
    : list CandidateWork.t :=
  match candidates with
  | [] => []
  | work :: rest =>
      if skipped st work then survivors st rest
      else work :: survivors (record_work st work) rest
  end.

(** The normalized DOI of a candidate when it has one: what the loop tests
    and records under [if doi]. *)
Definition present_doi (work : CandidateWork.t) : option string :=
  if PyStr.truthy_opt (doi_of work) then doi_of work else None.

(** The keys the loop records for one accepted candidate. *)
Definition recorded_keys (work : CandidateWork.t) : gset string :=
  match present_doi work with
  | Some d => {[ d ]} ∪ {[ key_of work ]}
  | None => {[ key_of work ]}
  end.

(** The scratch state agrees with the list accepted so far. *)
Definition tracks (st : scratch) : Prop :=
  candidate_titles st = map title_of (deduped st)
  /\ seen_keys st = ⋃ (map recorded_keys (deduped st)).

(** No non-empty title of [titles] reaches the threshold against [title]. *)
Definition title_clear (title : string) (titles : list string) : Prop :=
  forall t, t ∈ titles -> t <> EmptyString ->
    (title_threshold self <=? token_set_ratio title t / 100) = false.

(** The acceptance rule the loop implements, over the candidates [acc]
    accepted so far: DOI and identifier are each compared with the known
    set of their kind and with every key (identifier or DOI) recorded in
    the batch. *)
Definition accept_rule (acc : list CandidateWork.t) (work : CandidateWork.t) : Prop :=
  (forall d, present_doi work = Some d ->
     (d ∉ existing_doi self)
     /\ forall a, a ∈ acc -> key_of a <> d /\ present_doi a <> Some d)
  /\ ((key_of work ∉ existing_ids self)
      /\ forall a, a ∈ acc ->
           key_of a <> key_of work /\ present_doi a <> Some (key_of work))
  /\ title_clear (title_of work) (existing_titles self ++ map title_of acc).

(** The acceptance rule as the specification words it: DOI against DOIs,
    identifier against identifiers, title strictly below the threshold
    against every known and every accepted title. *)
Definition accept_rule_as_stated (acc : list CandidateWork.t)
    (work : CandidateWork.t) : Prop :=
  (forall d, present_doi work = Some d ->
     (d ∉ existing_doi self) /\ forall a, a ∈ acc -> present_doi a <> Some d)
  /\ ((key_of work ∉ existing_ids self)
      /\ forall a, a ∈ acc -> key_of a <> key_of work)
  /\ (forall t, t ∈ existing_titles self ++ map title_of acc ->
        (token_set_ratio (title_of work) t / 100 <? title_threshold self) = true).

(** A key recorded for one candidate is recorded for another: the DOI of
    [later] is the identifier of [earlier], or the identifier of [later] is
    the DOI of [earlier]. *)
Definition cross_match (earlier later : CandidateWork.t) : Prop :=
  present_doi later = Some (key_of earlier)
  \/ present_doi earlier = Some (key_of later).

(** *** Lemmas on the loop *)

Lemma filter_from_app (st : scratch) (l1 l2 : list CandidateWork.t) :
  filter_from st (l1 ++ l2) = filter_from (filter_from st l1) l2.
Proof. unfold filter_from. apply fold_left_app. Qed.

Lemma filter_from_cons (st : scratch) (work : CandidateWork.t) rest :
  filter_from st (work :: rest) = filter_from (filter_step st work) rest.
Proof. reflexivity. Qed.

Lemma deduped_filter_from (st : scratch) (candidates : list CandidateWork.t) :
  deduped (filter_from st candidates) = deduped st ++ survivors st candidates.
Proof.
  revert st. induction candidates as [|work rest IH]; intros st.
  - cbn. now rewrite app_nil_r.
  - rewrite filter_from_cons. cbn [survivors]. unfold filter_step.
    destruct (skipped st work).
    + apply IH.
    + rewrite IH. cbn [record_work deduped]. now rewrite <- app_assoc.
Qed.

Lemma filter_survivors (candidates : list CandidateWork.t) :
  filter candidates = survivors empty_scratch candidates.
Proof. unfold filter. now rewrite deduped_filter_from. Qed.

Lemma survivors_sublist (st : scratch) (candidates : list CandidateWork.t) :
  sublist (survivors st candidates) candidates.
Proof.
  revert st. induction candidates as [|work rest IH]; intros st; cbn.
  - constructor.
  - destruct (skipped st work); [apply sublist_cons | apply sublist_skip]; apply IH.
Qed.

(** Replaying the survivors from the same state reaches the same state. *)
Lemma filter_from_survivors (st : scratch) (candidates : list CandidateWork.t) :
  filter_from st (survivors st candidates) = filter_from st candidates.
Proof.
  revert st. induction candidates as [|work rest IH]; intros st; cbn [survivors].
  - reflexivity.
  - destruct (skipped st work) eqn:Hs.
    + rewrite IH, filter_from_cons. unfold filter_step. now rewrite Hs.
    + rewrite !filter_from_cons. unfold filter_step. rewrite Hs. apply IH.
Qed.

Lemma is_title_in_list_app (title : string) (l1 l2 : list string) (thr : float) :
  _is_title_in_list title (l1 ++ l2) thr
  = _is_title_in_list title l1 thr || _is_title_in_list title l2 thr.
Proof.
  induction l1 as [|e l1 IH]; cbn; [reflexivity|].
  destruct (negb (PyStr.truthy e)); [exact IH|].
  destruct (thr <=? token_set_ratio title e / 100); [reflexivity | exact IH].
Qed.

Lemma is_title_in_list_false (title : string) (l : list string) :
  _is_title_in_list title l (title_threshold self) = false <-> title_clear title l.
Proof.
  unfold title_clear. induction l as [|e l IH]; cbn.
  - split; [intros _ t Ht; inversion Ht | reflexivity].
  - destruct e as [|c e'] eqn:He; cbn [PyStr.truthy negb].
    + rewrite IH. split.
      * intros H t Ht Hne. apply elem_of_cons in Ht as [->|Ht]; [congruence | auto].
      * intros H t Ht Hne. apply H; [now apply elem_of_cons; right | exact Hne].
    + destruct (title_threshold self <=? token_set_ratio title (String c e') / 100) eqn:Hle.
      * split; [discriminate|]. intros H. rewrite <- Hle. apply H.
        -- apply elem_of_cons; now left.
        -- discriminate.
      * rewrite IH. split.
        -- intros H t Ht Hne. apply elem_of_cons in Ht as [->|Ht]; [exact Hle | auto].
        -- intros H t Ht Hne. apply H; [now apply elem_of_cons; right | exact Hne].
Qed.

Lemma tracks_empty : tracks empty_scratch.
Proof. split; reflexivity. Qed.

Lemma tracks_record (st : scratch) (work : CandidateWork.t) :
  tracks st -> tracks (record_work st work).
Proof.
  intros [Ht Hk]. split; cbn [record_work candidate_titles deduped seen_keys].
  - now rewrite Ht, map_app.
  - rewrite map_app, union_list_app_L. cbn [map].
    rewrite union_list_cons, union_list_nil, (right_id_L ∅ (∪)), <- Hk.
    unfold recorded_keys, present_doi.
    destruct (PyStr.truthy_opt (doi_of work)) eqn:Hd.
    + destruct (doi_of work) as [d|]; [|discriminate]. cbn [default from_option].
      apply set_eq. intros x. rewrite !elem_of_union, !elem_of_singleton.
      unfold id. tauto.
    + apply set_eq. intros x. rewrite !elem_of_union, !elem_of_singleton. tauto.
Qed.

Lemma tracks_filter_from (st : scratch) (candidates : list CandidateWork.t) :
  tracks st -> tracks (filter_from st candidates).
Proof.
  revert st. induction candidates as [|work rest IH]; intros st Hst; [exact Hst|].
  rewrite filter_from_cons. apply IH. unfold filter_step.
  destruct (skipped st work); [exact Hst | now apply tracks_record].
Qed.

Lemma elem_of_recorded (k : string) (acc : list CandidateWork.t) :
  k ∈ ⋃ (map recorded_keys acc)
  <-> exists a, a ∈ acc /\ (key_of a = k \/ present_doi a = Some k).
Proof.
  rewrite elem_of_union_list. split.
  - intros (X & HX & Hk). apply list_elem_of_fmap in HX.
    destruct HX as (a & HXa & Ha). subst X.
    exists a. split; [exact Ha|]. unfold recorded_keys in Hk.
    destruct (present_doi a) as [d|].
    + apply elem_of_union in Hk as [Hk|Hk]; apply elem_of_singleton in Hk; subst; auto.
    + apply elem_of_singleton in Hk. subst; auto.
  - intros (a & Ha & Hk). exists (recorded_keys a). split.
    + apply list_elem_of_fmap. now exists a.
    + unfold recorded_keys. destruct Hk as [ <- | -> ].
      * destruct (present_doi a); [apply elem_of_union_r|]; now apply elem_of_singleton.
      * apply elem_of_union_l. now apply elem_of_singleton.
Qed.

Lemma present_doi_truthy (work : CandidateWork.t) :
  PyStr.truthy_opt (doi_of work) = true ->
  present_doi work = Some (default EmptyString (doi_of work)).
Proof.
  intros H. unfold present_doi. rewrite H.
  destruct (doi_of work); [reflexivity | discriminate].
Qed.

Lemma present_doi_falsy (work : CandidateWork.t) :
  PyStr.truthy_opt (doi_of work) = false -> present_doi work = None.
Proof. intros H. unfold present_doi. now rewrite H. Qed.

(** The loop's tests decide the acceptance rule. *)
Lemma skipped_false_iff (st : scratch) (work : CandidateWork.t) :
  tracks st ->
  skipped st work = false <-> accept_rule (deduped st) work.
Proof.
  intros [Ht Hk]. unfold skipped, accept_rule, _is_title_duplicate.
  rewrite Ht, Hk.
  assert (Hseen : forall k, k ∈ ⋃ (map recorded_keys (deduped st)) <->
            ~ forall a, a ∈ deduped st -> key_of a <> k /\ present_doi a <> Some k).
  { intros k. rewrite elem_of_recorded. split.
    - intros (a & Ha & Hm) H. destruct (H a Ha). tauto.
    - intros H. destruct (decide (k ∈ ⋃ (map recorded_keys (deduped st)))) as [Hin|Hout].
      + now apply elem_of_recorded.
      + exfalso. apply H. intros a Ha. split; intros E; apply Hout;
          apply elem_of_recorded; exists a; tauto. }
  assert (Hclear : _is_title_in_list (title_of work) (existing_titles self) (title_threshold self)
                   || _is_title_in_list (title_of work) (map title_of (deduped st))
                        (title_threshold self) = false
                   <-> title_clear (title_of work)
                         (existing_titles self ++ map title_of (deduped st))).
  { rewrite <- is_title_in_list_app. apply is_title_in_list_false. }
  destruct (PyStr.truthy_opt (doi_of work)) eqn:Hd.
  - rewrite (present_doi_truthy _ Hd). set (d := default EmptyString (doi_of work)).
    cbn [andb].
    destruct (bool_decide_reflect (d ∈ existing_doi self)) as [Hin|Hout].
    { split; [discriminate|]. intros (H & _). destruct (H d eq_refl). contradiction. }
    destruct (bool_decide_reflect (d ∈ ⋃ (map recorded_keys (deduped st)))) as [Hin2|Hout2].
    { split; [discriminate|]. intros (H & _). destruct (H d eq_refl) as [_ H2].
      apply Hseen in Hin2. contradiction. }
    destruct (bool_decide_reflect (key_of work ∈ existing_ids self)) as [Hin3|Hout3].
    { split; [discriminate|]. intros (_ & (H & _) & _). contradiction. }
    destruct (bool_decide_reflect (key_of work ∈ ⋃ (map recorded_keys (deduped st))))
      as [Hin4|Hout4].
    { split; [discriminate|]. intros (_ & (_ & H) & _). apply Hseen in Hin4. contradiction. }
    cbn [orb].
    assert (Hno : forall k, k ∉ ⋃ (map recorded_keys (deduped st)) ->
              forall a, a ∈ deduped st -> key_of a <> k /\ present_doi a <> Some k).
    { intros k Hk' a Ha. split; intros E; apply Hk'; apply elem_of_recorded; exists a; tauto. }
    destruct (_ || _) eqn:Ht'.
    + split; [discriminate|]. intros (_ & _ & H). apply Hclear in H. congruence.
    + split; [|reflexivity]. intros _. split; [|split].
      * intros d' [= <-]. split; [exact Hout | now apply Hno].
      * split; [exact Hout3 | now apply Hno].
      * now apply Hclear.
  - rewrite (present_doi_falsy _ Hd). cbn [andb].
    destruct (bool_decide_reflect (key_of work ∈ existing_ids self)) as [Hin3|Hout3].
    { split; [discriminate|]. intros (_ & (H & _) & _). contradiction. }
    destruct (bool_decide_reflect (key_of work ∈ ⋃ (map recorded_keys (deduped st))))
      as [Hin4|Hout4].
    { split; [discriminate|]. intros (_ & (_ & H) & _). apply Hseen in Hin4. contradiction. }
    cbn [orb].
    destruct (_ || _) eqn:Ht'.
    + split; [discriminate|]. intros (_ & _ & H). apply Hclear in H. congruence.
    + split; [|reflexivity]. intros _. split; [|split].
      * discriminate.
      * split; [exact Hout3|]. intros a Ha.
        split; intros E; apply Hout4; apply elem_of_recorded; exists a; tauto.
      * now apply Hclear.
Qed.

Lemma filter_snoc (pre : list CandidateWork.t) (work : CandidateWork.t) :
  filter (pre ++ [work])
  = if skipped (filter_from empty_scratch pre) work then filter pre
    else filter pre ++ [work].
Proof.
  unfold filter. rewrite filter_from_app. cbn. unfold filter_step.
  now destruct (skipped (filter_from empty_scratch pre) work).
Qed.

Lemma filter_from_tracks_deduped (pre : list CandidateWork.t) :
  tracks (filter_from empty_scratch pre)
  /\ deduped (filter_from empty_scratch pre) = filter pre.
Proof. split; [apply tracks_filter_from, tracks_empty | reflexivity]. Qed.

(** *** Properties of [filter] *)

(** C2 (amended): [filter] returns a subsequence of its input in input
    order; the candidate that follows the prefix [pre] is appended exactly
    when [accept_rule] holds of it against the candidates accepted from
    [pre] (DOI and identifier each differ from the known set of their kind
    and from every identifier and DOI recorded in the batch, and no
    non-empty known or accepted title reaches the threshold); and what was
    decided for a prefix is kept when the batch goes on. *)
Theorem filter_accepts_by_rule
    (candidates pre post : list CandidateWork.t) (work : CandidateWork.t) :
  sublist (filter candidates) candidates
  /\ (filter (pre ++ [work]) = filter pre ++ [work]
      <-> accept_rule (filter pre) work)
  /\ (~ accept_rule (filter pre) work -> filter (pre ++ [work]) = filter pre)
  /\ filter (pre ++ [work]) `prefix_of` filter (pre ++ work :: post).
Proof.
  destruct (filter_from_tracks_deduped pre) as [Htr Hded].
  pose proof (skipped_false_iff _ work Htr) as Hiff. rewrite Hded in Hiff.
  pose proof (filter_snoc pre work) as Hsnoc.
  split; [|split; [split|split]].
  - rewrite filter_survivors. apply survivors_sublist.
  - intros Heq. apply Hiff.
    destruct (skipped (filter_from empty_scratch pre) work); [|reflexivity].
    rewrite Hsnoc in Heq. apply (f_equal length) in Heq.
    rewrite length_app in Heq. cbn in Heq. lia.
  - intros Hrule. apply Hiff in Hrule. now rewrite Hsnoc, Hrule.
  - intros Hno. destruct (skipped (filter_from empty_scratch pre) work) eqn:Hs.
    + exact Hsnoc.
    + exfalso. apply Hno, Hiff. reflexivity.
  - replace (pre ++ work :: post) with ((pre ++ [work]) ++ post)
      by now rewrite <- app_assoc.
    unfold filter at 2. rewrite filter_from_app, deduped_filter_from.
    now eexists.
Qed.

(** C8: filtering the result of [filter] again, with the same engine,
    returns it unchanged. *)
Theorem filter_idempotent (candidates : list CandidateWork.t) :
  filter (filter candidates) = filter candidates.
Proof.
  rewrite (filter_survivors candidates). unfold filter.
  rewrite filter_from_survivors. apply filter_survivors.
Qed.

(** C10: identifiers and DOIs of accepted candidates share one [seen_keys]
    set, so a candidate whose DOI is the identifier of a candidate accepted
    earlier in the batch, or whose identifier is the DOI of one, is
    rejected: the batch gives the same result without it. *)
Theorem filter_rejects_cross_match
    (pre post : list CandidateWork.t) (earlier work : CandidateWork.t) :
  earlier ∈ filter pre ->
  cross_match earlier work ->
  filter (pre ++ work :: post) = filter (pre ++ post).
Proof.
  intros Hin Hcross.
  destruct (filter_from_tracks_deduped pre) as [Htr Hded].
  assert (Hs : skipped (filter_from empty_scratch pre) work = true).
  { destruct (skipped (filter_from empty_scratch pre) work) eqn:Hs; [reflexivity|].
    apply (skipped_false_iff _ work Htr) in Hs. rewrite Hded in Hs.
    destruct Hs as (Hdoi & (_ & Hkey) & _). exfalso.
    destruct Hcross as [Hc|Hc].
    - destruct (Hdoi _ Hc) as [_ H]. destruct (H earlier Hin) as [H1 _]. now apply H1.
    - destruct (Hkey earlier Hin) as [_ H2]. now apply H2. }
  unfold filter. rewrite !filter_from_app, filter_from_cons.
  unfold filter_step. now rewrite Hs.
Qed.

End Engine.

(** *** A concrete batch *)

(** A stand-in scorer for evaluating the engine: 100 on equal strings and 0
    otherwise. *)
Definition exact_ratio (a b : string) : float :=
  if String.eqb a b then 100 else 0.

(** The engine over an empty library, with the default threshold. *)
Definition fresh_engine : DedupeEngine := default_engine [].

Definition work_gnn : CandidateWork.t :=
  CandidateWork.mk "arxiv" "10.1000/xyz" "Graph neural networks" None []
    None None None None ∅ ∅.

(** A different work whose DOI is the identifier of [work_gnn]. *)
Definition work_fold : CandidateWork.t :=
  CandidateWork.mk "crossref" "cr-77" "Protein folding dynamics" None []
    (Some "10.1000/XYZ") None None None ∅ ∅.

Example normalize_title_collapses :
  _normalize_title "  Deep   Learning " = "deep learning"%string.
Proof. reflexivity. Qed.

Example normalize_identifier_lowers :
  _normalize_identifier " 10.1000/XYZ " = "10.1000/xyz"%string.
Proof. reflexivity. Qed.

Example filter_gnn_alone :
  filter exact_ratio fresh_engine [work_gnn] = [work_gnn].
Proof. vm_compute. reflexivity. Qed.

(** C2, as stated, fails: [work_fold] passes the three stated tests against
    the batch so far (its DOI equals no known or accepted DOI, its
    identifier no known or accepted identifier, its title scores below the
    threshold), yet [filter] drops it. *)
Lemma filter_drops_stated_acceptable :
  accept_rule_as_stated exact_ratio fresh_engine
    (filter exact_ratio fresh_engine [work_gnn]) work_fold
  /\ filter exact_ratio fresh_engine ([work_gnn] ++ [work_fold])
     = filter exact_ratio fresh_engine [work_gnn].
Proof.
  split; [|vm_compute; reflexivity].
  rewrite filter_gnn_alone. unfold accept_rule_as_stated. repeat split.
  - vm_compute. set_solver.
  - intros a Ha. apply list_elem_of_singleton in Ha. subst a.
    vm_compute. discriminate.
  - vm_compute. set_solver.
  - intros a Ha. apply list_elem_of_singleton in Ha. subst a.
    vm_compute. discriminate.
  - intros t Ht.
    assert (Hl : existing_titles fresh_engine ++ map title_of [work_gnn]
                 = ["graph neural networks"%string])
      by (vm_compute; reflexivity).
    rewrite Hl in Ht. apply list_elem_of_singleton in Ht. subst t.
    vm_compute. reflexivity.
Qed.

Lemma filter_rejects_cross_match_witness :
  filter exact_ratio fresh_engine ([work_gnn] ++ work_fold :: [])
  = filter exact_ratio fresh_engine ([work_gnn] ++ []).
Proof.
  apply (filter_rejects_cross_match exact_ratio fresh_engine
           [work_gnn] [] work_gnn work_fold).
  - rewrite filter_gnn_alone. apply list_elem_of_singleton. reflexivity.
  - left. vm_compute. reflexivity.
Defined.

End Dedupe.

(** ** Similarity index ([faiss_store.py]) *)

Module FaissStore.

(** A numpy array: its shape and its elements in row-major order. *)
Record ndarray : Type := mk_ndarray {
  shape : list nat;
  data : list float
}.

Definition ndim (a : ndarray) : nat := length (shape a).

(** [a.shape[i]] *)
Definition shape_at (a : ndarray) (i : nat) : nat := nth i (shape a) 0%nat.

(** [faiss.IndexFlatIP]: the dimension, the number of stored vectors and
    the stored vectors, flat. *)
Record IndexFlatIP : Type := mk_flat {
  d : nat;
  ntotal : nat;
  xb : list float
}.

(** [index.add(vectors)] *)
Definition index_add (ix : IndexFlatIP) (vectors : ndarray) : IndexFlatIP :=
  mk_flat (d ix) (ntotal ix + shape_at vectors 0) (xb ix ++ data vectors).

Record FaissIndex : Type := mk_index {
  dim : nat;
  index : IndexFlatIP
}.

Section Store.

(** Whether [import faiss] succeeded. *)
Variable faiss_available : bool.

(** [FaissIndex.__init__] *)
Definition init (dim : nat) (index : option IndexFlatIP) : result FaissIndex :=
  if negb faiss_available
  then Raise (RuntimeError "faiss is required; install faiss-cpu or adjust configuration.")
  else Ok (mk_index dim (default (mk_flat dim 0 []) index)).

(** [FaissIndex.from_vectors] *)
Definition from_vectors (vectors : ndarray) : result (FaissIndex * list nat) :=
  if negb (ndim vectors =? 2)%nat
  then Raise (ValueError "Vectors must be a 2D array")
  else
    let dim := shape_at vectors 1 in
    match init dim None with
    | Raise e => Raise e
    | Ok instance =>
        Ok (mk_index (FaissStore.dim instance) (index_add (index instance) vectors),
            seq 0 (shape_at vectors 0))
    end.

(** [FaissIndex.load], [stored] being what [faiss.read_index] returns. *)
Definition load (stored : IndexFlatIP) : result FaissIndex :=
  if negb faiss_available
  then Raise (RuntimeError "faiss is required; install faiss-cpu or adjust configuration.")
  else if (ntotal stored =? 0)%nat
  then Raise (ValueError "Loaded FAISS index is empty")
  else init (d stored) (Some stored).

(** [TextVectorizer.encode], as used by the profile builder. *)
Variable encode : list string -> ndarray.

(** [ProfileBuilder.run] up to the index it saves; writing the embeddings
    back to storage and the profile summary are left out. *)
Definition run (items : list ZoteroItem.t) : result FaissIndex :=
  match items with
  | [] => Raise (RuntimeError "No items found in storage; run ingest before building profile.")
  | _ =>
      let texts := map ZoteroItem.content_for_embedding items in
      let vectors := encode texts in
      match from_vectors vectors with
      | Raise e => Raise e
      | Ok (index, order) => Ok index
      end
  end.

End Store.

(** C1 (amended): an empty batch is refused around [from_vectors], not by
    it. With faiss installed, [from_vectors] on a 2-D array of zero rows
    returns an index holding zero vectors and an empty order; the profile
    builder raises before it vectorizes when storage has no items; and
    [load] raises on a stored index that holds zero vectors. *)
Theorem empty_batch_refused_outside_from_vectors
    (encode : list string -> ndarray) (vectors : ndarray) (stored : IndexFlatIP) :
  ndim vectors = 2%nat ->
  shape_at vectors 0 = 0%nat ->
  ntotal stored = 0%nat ->
  (exists ix, from_vectors true vectors = Ok (ix, [])
              /\ ntotal (index ix) = 0%nat
              /\ dim ix = shape_at vectors 1)
  /\ run true encode []
     = Raise (RuntimeError "No items found in storage; run ingest before building profile.")
  /\ load true stored = Raise (ValueError "Loaded FAISS index is empty").
Proof.
  intros Hdim Hrows Hstored. split; [|split].
  - unfold from_vectors, init. rewrite Hdim. cbn [Nat.eqb negb].
    eexists. split; [|split].
    + rewrite Hrows. reflexivity.
    + cbn. exact Hrows.
    + reflexivity.
  - reflexivity.
  - unfold load. rewrite Hstored. reflexivity.
Qed.

(** A batch of zero vectors of dimension 384. *)
Definition no_vectors : ndarray := mk_ndarray [0%nat; 384%nat] [].

(** C1, as stated, fails: on a batch with N = 0 [from_vectors] returns an
    index, and that index is empty. *)
Lemma from_vectors_accepts_empty_batch :
  from_vectors true no_vectors = Ok (mk_index 384 (mk_flat 384 0 []), []).
Proof. reflexivity. Qed.

Lemma empty_batch_refused_outside_witness :
  (exists ix, from_vectors true no_vectors = Ok (ix, [])
              /\ ntotal (index ix) = 0%nat
              /\ dim ix = shape_at no_vectors 1)
  /\ run true (fun _ => no_vectors) []
     = Raise (RuntimeError "No items found in storage; run ingest before building profile.")
  /\ load true (mk_flat 384 0 [])
     = Raise (ValueError "Loaded FAISS index is empty").
Proof.
  apply (empty_batch_refused_outside_from_vectors
           (fun _ => no_vectors) no_vectors (mk_flat 384 0 []));
    reflexivity.
Defined.

End FaissStore.

(** ** Ranker ([score_rank.py]) *)

Module ScoreRank.

Open Scope float_scope.

(** Modelled from the spec: the [settings] module is not among the sources;
    these are the fields of [settings.scoring] that [score_rank.py] reads.
    [journal_quality] is optional because the ranker reads it with
    [getattr(weights, "journal_quality", 0.0)]. *)
Module Weights.
Record t : Type := mk {
  similarity : float;
  recency : float;
  citations : float;
  altmetric : float;
  journal_quality : option float;
  author_bonus : float;
  venue_bonus : float
}.
End Weights.

Module Thresholds.
Record t : Type := mk {
  must_read : float;
  consider : float
}.
End Thresholds.

Module Scoring.
Record t : Type := mk {
  weights : Weights.t;
  thresholds : Thresholds.t;
  decay_days : gmap string Z;
  whitelist_authors : list string;
  whitelist_venues : list string
}.
End Scoring.

Record Settings : Type := mk_settings {
  scoring : Scoring.t
}.

(** Truth value of a [float]: zero (of either sign) is false, NaN is true. *)
Definition truthy_float (x : float) : bool := negb (x =? 0).

(** [_bonus] *)
Definition _bonus (values : list string) (whitelist : list string) : float :=
  let whitelist_lower : gset string := list_to_set (map PyStr.lower whitelist) in
  if existsb
       (fun value => PyStr.truthy value
                     && bool_decide (PyStr.lower value ∈ whitelist_lower))
       values
  then 1 else 0.

Definition microseconds_per_day : Z := 86400000000.

(** The instant a [datetime] with a [tzinfo] denotes, in UTC microseconds. *)
Definition utc_instant (dt : datetime) : Z :=
  wall_us dt - default 0%Z (tzinfo dt).

(** [max((now - published).days, 0)], after a naive [published] has been
    given the UTC zone; [timedelta.days] rounds towards minus infinity. *)
Definition delta_days (now : Z) (published : datetime) : Z :=
  let published :=
    match tzinfo published with
    | None => mk_datetime (wall_us published) (Some 0%Z)
    | Some _ => published
    end in
  Z.max ((now - utc_instant published) / microseconds_per_day) 0.

(** [_compute_recency]; [now] is the reading of
    [datetime.now(timezone.utc)], in UTC microseconds. *)
Definition _compute_recency (now : Z) (published : option datetime)
    (settings : Settings) : float :=
  match published with
  | None => 0
  | Some published =>
      let days := delta_days now published in
      let decay := Scoring.decay_days (scoring settings) in
      if (days <=? default 30 (decay !! "fast"%string))%Z then 1
      else if (days <=? default 60 (decay !! "medium"%string))%Z then 0.7
      else if (days <=? default 180 (decay !! "slow"%string))%Z then 0.4
      else 0.1
  end.

(** The label chosen at the end of the loop body of [rank]. *)
Definition label_for (thresholds : Thresholds.t) (score : float) : string :=
  if Thresholds.must_read thresholds <=? score then "must_read"
  else if Thresholds.consider thresholds <=? score then "consider"
  else "ignore".

(** [ranked.sort(key=lambda w: w.score, reverse=True)]: Python's sort is
    stable and compares keys with [<] only; on keys that [<] orders (no
    NaN) its result is the stable insertion below, where an element moves
    past exactly the elements of strictly greater score. With a NaN among
    the keys see [list_sort]. *)
Fixpoint insert_desc (x : RankedWork.t) (l : list RankedWork.t) : list RankedWork.t :=
  match l with
  | [] => [x]
  | y :: rest =>
      if RankedWork.score x <? RankedWork.score y then y :: insert_desc x rest
      else x :: l
  end.

Definition sort_desc (l : list RankedWork.t) : list RankedWork.t :=
  fold_right insert_desc [] l.

(** Exchanging the entries at positions [i] and [i + 1]; nothing happens
    when the list is too short. *)
Fixpoint swap_at {A : Type} (i : nat) (l : list A) : list A :=
  match i, l with
  | O, x :: y :: rest => y :: x :: rest
  | S j, x :: rest => x :: swap_at j rest
  | _, _ => l
  end.

(** A rearrangement given as a sequence of such exchanges. Every
    rearrangement of a list is one (see [rearrange_complete]). *)
Definition rearrange {A : Type} (swaps : list nat) (l : list A) : list A :=
  fold_left (fun acc i => swap_at i acc) swaps l.

(** No key is NaN. *)
Definition keys_ordered (l : list RankedWork.t) : bool :=
  forallb (fun r => negb (is_nan (RankedWork.score r))) l.

(** [a] may stand before [b] in a descending order of scores. *)
Definition score_ge (a b : RankedWork.t) : Prop :=
  (RankedWork.score b <=? RankedWork.score a) = true.



(** The order of the labels: [ignore] below [consider] below [must_read]. *)
Definition label_level (label : string) : nat :=
  if String.eqb label "must_read" then 2
  else if String.eqb label "consider" then 1
  else 0.

Lemma insert_desc_perm (x : RankedWork.t) (l : list RankedWork.t) :
  Permutation (insert_desc x l) (x :: l).
Proof.
  induction l as [|y rest IH]; cbn; [reflexivity|].
  destruct (RankedWork.score x <? RankedWork.score y); [|reflexivity].
  rewrite IH. apply perm_swap.
Qed.

Lemma sort_desc_perm (l : list RankedWork.t) : Permutation (sort_desc l) l.
Proof.
  induction l as [|x rest IH]; cbn; [reflexivity|].
  rewrite insert_desc_perm. now constructor.
Qed.

Lemma swap_at_perm {A : Type} (i : nat) (l : list A) :
  Permutation (swap_at i l) l.
Proof.
  revert l. induction i as [|j IH]; intros [|x rest]; cbn; try reflexivity.
  - destruct rest; [reflexivity | apply perm_swap].
  - constructor. apply IH.
Qed.

Lemma rearrange_perm {A : Type} (swaps : list nat) (l : list A) :
  Permutation (rearrange swaps l) l.
Proof.
  unfold rearrange. revert l.
  induction swaps as [|i rest IH]; intros l; cbn [fold_left]; [reflexivity|].
  rewrite IH. apply swap_at_perm.
Qed.

Lemma rearrange_app {A : Type} (s1 s2 : list nat) (l : list A) :
  rearrange (s1 ++ s2) l = rearrange s2 (rearrange s1 l).
Proof. apply fold_left_app. Qed.

Lemma rearrange_cons {A : Type} (swaps : list nat) (x : A) (l : list A) :
  rearrange (map S swaps) (x :: l) = x :: rearrange swaps l.
Proof.
  unfold rearrange. revert l.
  induction swaps as [|i rest IH]; intros l; [reflexivity|].
  cbn [map fold_left swap_at]. apply IH.
Qed.

(** The exchanges reach every rearrangement, so the parameter of
    [list_sort] leaves no behaviour of the library out. *)
Lemma rearrange_complete {A : Type} (l l' : list A) :
  Permutation l l' -> exists swaps, rearrange swaps l = l'.
Proof.
  induction 1 as [|x l l' _ [swaps IH]|x y l|l l' l'' _ [s1 IH1] _ [s2 IH2]].
  - now exists [].
  - exists (map S swaps). now rewrite rearrange_cons, IH.
  - now exists [0%nat].
  - exists (s1 ++ s2). now rewrite rearrange_app, IH1, IH2.
Qed.








Lemma delta_days_unfold (now : Z) (published : datetime) :
  delta_days now published
  = Z.max ((now - utc_instant published) / microseconds_per_day) 0.
Proof. destruct published as [w [z|]]; reflexivity. Qed.

Section Ranker.

(** [numpy.log1p] on a [float]. *)
Variable log1p : float -> float.

(** The embedding vectors. *)
Variable vec : Type.

(** Row [i] of [vectorizer.encode(texts)] as a function of [texts[i]], and
    row [i] of [index.search(vectors, top_k=1)[0]] as a function of
    [vectors[i]]: both libraries work row by row. *)
Variable embed : string -> vec.
Variable nearest : vec -> list float.

(** [self.settings] and [self.journal_metrics] *)
Variable settings : Settings.
Variable journal_metrics : gmap string float.

(** What [list.sort] does to keys it cannot order. With a NaN among the
    keys the comparisons [<] contradict each other, and the language then
    promises only that the list is rearranged; which rearrangement comes
    out is the business of the interpreter's merge strategy and is
    determined by the keys in their input order. It is taken as a
    parameter: the exchanges [nan_swaps keys] applied to the list. *)
Variable nan_swaps : list float -> list nat.

(** [ranked.sort(key=lambda w: w.score, reverse=True)] *)
Definition list_sort (l : list RankedWork.t) : list RankedWork.t :=
  if keys_ordered l then sort_desc l
  else rearrange (nan_swaps (map RankedWork.score l)) l.

Definition encode (texts : list string) : list vec := map embed texts.
Definition search (vectors : list vec) : list (list float) := map nearest vectors.

(** [_journal_quality_score] *)
Definition _journal_quality_score (venue : option string)
    (metrics : gmap string float) : float * option float :=
  if negb (PyStr.truthy_opt venue) then (1, None)
  else
    let key := PyStr.lower (PyStr.strip (default EmptyString venue)) in
    match metrics !! key with
    | None => (1, None)
    | Some value =>
        let score := log1p value in
        let score := if score <? 1 then 1 else score in
        (score, Some value)
    end.

(** The citation and altmetric counts [_compute_metric] reads. *)
Definition citation_count (candidate : CandidateWork.t) : float :=
  let metrics := CandidateWork.metrics candidate in
  default (default 0 (metrics !! "is-referenced-by"%string))
    (metrics !! "cited_by"%string).

Definition altmetric_count (candidate : CandidateWork.t) : float :=
  default 0 (CandidateWork.metrics candidate !! "altmetric"%string).

(** [_compute_metric] *)
Definition _compute_metric (candidate : CandidateWork.t) : float * float :=
  let citations := citation_count candidate in
  let altmetric := altmetric_count candidate in
  let citation_score := if truthy_float citations then log1p citations else 0 in
  let altmetric_score := if truthy_float altmetric then log1p altmetric else 0 in
  (citation_score, altmetric_score).

(** The body of the loop of [rank] for one row of the [zip]; [now] is the
    clock reading taken inside [_compute_recency]. *)
Definition score_candidate (now : Z) (candidate : CandidateWork.t)
    (distance : list float) : RankedWork.t :=
  let similarity := match distance with d0 :: _ => d0 | [] => 0 end in
  let recency_score := _compute_recency now (CandidateWork.published candidate) settings in
  let '(citation_score, altmetric_score) := _compute_metric candidate in
  let '(journal_quality, journal_sjr) :=
    _journal_quality_score (CandidateWork.venue candidate) journal_metrics in
  let author_bonus :=
    _bonus (CandidateWork.authors candidate)
      (Scoring.whitelist_authors (scoring settings)) in
  let venue_bonus :=
    _bonus (if PyStr.truthy_opt (CandidateWork.venue candidate)
            then [default EmptyString (CandidateWork.venue candidate)] else [])
      (Scoring.whitelist_venues (scoring settings)) in
  let weights := Scoring.weights (scoring settings) in
  let thresholds := Scoring.thresholds (scoring settings) in
  let score :=
    similarity * Weights.similarity weights
    + recency_score * Weights.recency weights
    + citation_score * Weights.citations weights
    + altmetric_score * Weights.altmetric weights
    + journal_quality * default 0 (Weights.journal_quality weights)
    + author_bonus * Weights.author_bonus weights
    + venue_bonus * Weights.venue_bonus weights in
  let label := label_for thresholds score in
  RankedWork.mk
    (CandidateWork.source candidate) (CandidateWork.identifier candidate)
    (CandidateWork.title candidate) (CandidateWork.abstract candidate)
    (CandidateWork.authors candidate) (CandidateWork.doi candidate)
    (CandidateWork.url candidate) (CandidateWork.published candidate)
    (CandidateWork.venue candidate) (CandidateWork.metrics candidate)
    (CandidateWork.extra candidate)
    score similarity recency_score citation_score author_bonus venue_bonus
    journal_quality journal_sjr label.

(** The loop over [zip(candidates, vectors, distances)]; [clock i] is the
    clock reading taken while row [i] is scored. *)
Fixpoint score_rows (clock : nat -> Z) (i : nat)
    (rows : list (CandidateWork.t * (vec * list float))) : list RankedWork.t :=
  match rows with
  | [] => []
  | (candidate, (vector, distance)) :: rest =>
      score_candidate (clock i) candidate distance :: score_rows clock (S i) rest
  end.

(** The list [ranked] before it is sorted. *)
Definition scored (clock : nat -> Z) (candidates : list CandidateWork.t)
    : list RankedWork.t :=
  let texts := map CandidateWork.content_for_embedding candidates in
  let vectors := encode texts in
  let distances := search vectors in
  score_rows clock 0 (combine candidates (combine vectors distances)).

(** [WorkRanker.rank] *)
Definition rank (clock : nat -> Z) (candidates : list CandidateWork.t)
    : list RankedWork.t :=
  match candidates with
  | [] => []
  | _ => list_sort (scored clock candidates)
  end.


(** *** The loop, candidate by candidate *)

(** The distance row of one candidate. *)
Definition row_distance (candidate : CandidateWork.t) : list float :=
  nearest (embed (CandidateWork.content_for_embedding candidate)).

Fixpoint score_from (clock : nat -> Z) (i : nat)
    (candidates : list CandidateWork.t) : list RankedWork.t :=
  match candidates with
  | [] => []
  | candidate :: rest =>
      score_candidate (clock i) candidate (row_distance candidate)
      :: score_from clock (S i) rest
  end.

Lemma score_rows_from (clock : nat -> Z) (i : nat) (candidates : list CandidateWork.t) :
  score_rows clock i
    (combine candidates
       (combine (encode (map CandidateWork.content_for_embedding candidates))
          (search (encode (map CandidateWork.content_for_embedding candidates)))))
  = score_from clock i candidates.
Proof.
  revert i. induction candidates as [|c rest IH]; intros i; [reflexivity|].
  cbn. f_equal. apply IH.
Qed.

Lemma scored_from (clock : nat -> Z) (candidates : list CandidateWork.t) :
  scored clock candidates = score_from clock 0 candidates.
Proof. apply score_rows_from. Qed.

Lemma score_from_fixed_clock (now : Z) (i : nat) (candidates : list CandidateWork.t) :
  score_from (fun _ => now) i candidates
  = map (fun c => score_candidate now c (row_distance c)) candidates.
Proof.
  revert i. induction candidates as [|c rest IH]; intros i; [reflexivity|].
  cbn. f_equal. apply IH.
Qed.

Lemma list_sort_perm (l : list RankedWork.t) : Permutation (list_sort l) l.
Proof.
  unfold list_sort. destruct (keys_ordered l).
  - apply sort_desc_perm.
  - apply rearrange_perm.
Qed.


Lemma rank_sorts_scored (clock : nat -> Z) (candidates : list CandidateWork.t) :
  rank clock candidates = list_sort (scored clock candidates).
Proof. destruct candidates; reflexivity. Qed.

Lemma candidate_fields_score_candidate (now : Z) (c : CandidateWork.t)
    (distance : list float) :
  RankedWork.candidate_fields (score_candidate now c distance) = c.
Proof.
  unfold score_candidate.
  destruct (_compute_metric c), (_journal_quality_score _ _).
  now destruct c.
Qed.

Lemma label_score_candidate (now : Z) (c : CandidateWork.t) (distance : list float) :
  RankedWork.label (score_candidate now c distance)
  = label_for (Scoring.thresholds (scoring settings))
      (RankedWork.score (score_candidate now c distance)).
Proof.
  unfold score_candidate.
  now destruct (_compute_metric c), (_journal_quality_score _ _).
Qed.

Lemma candidate_fields_score_from (clock : nat -> Z) (i : nat)
    (candidates : list CandidateWork.t) :
  map RankedWork.candidate_fields (score_from clock i candidates) = candidates.
Proof.
  revert i. induction candidates as [|c rest IH]; intros i; [reflexivity|].
  cbn [score_from map]. now rewrite candidate_fields_score_candidate, IH.
Qed.

Lemma label_score_from (clock : nat -> Z) (i : nat) (candidates : list CandidateWork.t) :
  Forall (fun r => RankedWork.label r
                   = label_for (Scoring.thresholds (scoring settings))
                       (RankedWork.score r))
    (score_from clock i candidates).
Proof.
  revert i. induction candidates as [|c rest IH]; intros i; cbn; constructor.
  - apply label_score_candidate.
  - apply IH.
Qed.

(** *** Properties of [rank] *)

(** C9: every ranked work carries the eleven fields of the candidate it was
    made from, unchanged: read back in input order before the sort they are
    the input list, and after the sort a permutation of it. *)
Theorem rank_keeps_candidate_fields (clock : nat -> Z)
    (candidates : list CandidateWork.t) :
  map RankedWork.candidate_fields (scored clock candidates) = candidates
  /\ Permutation (map RankedWork.candidate_fields (rank clock candidates)) candidates.
Proof.
  assert (H : map RankedWork.candidate_fields (scored clock candidates) = candidates).
  { rewrite scored_from. apply candidate_fields_score_from. }
  split; [exact H|].
  rewrite rank_sorts_scored. rewrite <- H at 2.
  apply Permutation_map, list_sort_perm.
Qed.

Lemma label_for_cases (th : Thresholds.t) (s : float) :
  label_for th s = "must_read"%string /\ (Thresholds.must_read th <=? s) = true
  \/ label_for th s = "consider"%string
     /\ (Thresholds.must_read th <=? s) = false
     /\ (Thresholds.consider th <=? s) = true
  \/ label_for th s = "ignore"%string
     /\ (Thresholds.must_read th <=? s) = false
     /\ (Thresholds.consider th <=? s) = false.
Proof.
  unfold label_for.
  destruct (Thresholds.must_read th <=? s); [now left|].
  destruct (Thresholds.consider th <=? s); [right; left | right; right]; auto.
Qed.

(** C4: the label [rank] assigns is [label_for] of the composite score:
    [must_read] when the score reaches the must-read threshold, else
    [consider] when it reaches the consider threshold, else [ignore]. It
    is monotone in the score, with thresholds ordered consider below
    must-read the three labels are exactly the three bands, and with
    thresholds 0.8 and 0.5 the scores 0.81, 0.5 and 0.49999 fall in
    [must_read], [consider] and [ignore]. *)
Theorem rank_label_bands (clock : nat -> Z) (candidates : list CandidateWork.t)
    (th : Thresholds.t) (s s' : float) :
  (Thresholds.consider th <=? Thresholds.must_read th) = true ->
  Forall (fun r => RankedWork.label r
                   = label_for (Scoring.thresholds (scoring settings))
                       (RankedWork.score r))
    (rank clock candidates)
  /\ ((s <=? s') = true ->
      (label_level (label_for th s) <= label_level (label_for th s'))%nat)
  /\ (label_for th s = "must_read"%string
      <-> (Thresholds.must_read th <=? s) = true)
  /\ (label_for th s = "consider"%string
      <-> (Thresholds.consider th <=? s) = true
          /\ (Thresholds.must_read th <=? s) = false)
  /\ (label_for th s = "ignore"%string
      <-> (Thresholds.consider th <=? s) = false)
  /\ label_for (Thresholds.mk 0.8 0.5) 0.81 = "must_read"%string
  /\ label_for (Thresholds.mk 0.8 0.5) 0.5 = "consider"%string
  /\ label_for (Thresholds.mk 0.8 0.5) 0.49999 = "ignore"%string.
Proof.
  intros Hth.
  assert (Hband : (Thresholds.must_read th <=? s) = true ->
                  (Thresholds.consider th <=? s) = true).
  { intros H. eapply FloatOrder.leb_trans; eassumption. }
  split; [|split; [|split; [|split; [|split]]]].
  - rewrite rank_sorts_scored.
    apply (Permutation_Forall (Permutation_sym (list_sort_perm _))).
    rewrite scored_from. apply label_score_from.
  - intros Hle.
    destruct (label_for_cases th s) as [[-> Hm]|[(-> & Hm & Hc)|(-> & Hm & Hc)]];
      destruct (label_for_cases th s') as [[-> Hm']|[(-> & Hm' & Hc')|(-> & Hm' & Hc')]];
      cbn; try lia.
    + rewrite (FloatOrder.leb_trans _ _ _ Hm Hle) in Hm'. discriminate.
    + rewrite (FloatOrder.leb_trans _ _ _ Hm Hle) in Hm'. discriminate.
    + rewrite (FloatOrder.leb_trans _ _ _ Hc Hle) in Hc'. discriminate.
  - destruct (label_for_cases th s) as [[-> Hm]|[(-> & Hm & Hc)|(-> & Hm & Hc)]];
      rewrite Hm; split; congruence.
  - destruct (label_for_cases th s) as [[-> Hm]|[(-> & Hm & Hc)|(-> & Hm & Hc)]];
      rewrite Hm, ?Hc; split; try congruence; try tauto.
    + intros [_ H]. discriminate.
    + intros [H _]. discriminate.
  - destruct (label_for_cases th s) as [[-> Hm]|[(-> & Hm & Hc)|(-> & Hm & Hc)]].
    + rewrite (Hband Hm). split; discriminate.
    + rewrite Hc. split; discriminate.
    + rewrite Hc. split; reflexivity.
  - vm_compute. auto.
Qed.



(** *** Metric compression *)

Section LogCompression.

(** What the proofs use of [numpy.log1p]: it maps 0 to 0 and is monotone on
    the non-negative numbers. *)
Hypothesis log1p_zero : log1p 0 = 0.
Hypothesis log1p_monotone :
  forall x y, (0 <=? x) = true -> (x <=? y) = true -> (log1p x <=? log1p y) = true.

(** [log1p(x) if x else 0.0] *)
Definition compress (x : float) : float :=
  if truthy_float x then log1p x else 0.

Lemma compress_monotone (x y : float) :
  (0 <=? x) = true -> (x <? y) = true -> (compress x <=? compress y) = true.
Proof using log1p_zero log1p_monotone.
  intros H0 Hlt. pose proof (FloatOrder.ltb_leb _ _ Hlt) as Hle.
  pose proof (FloatOrder.leb_trans _ _ _ H0 Hle) as H0y.
  unfold compress, truthy_float.
  destruct (x =? 0) eqn:Hx, (y =? 0) eqn:Hy; cbn [negb].
  - reflexivity.
  - rewrite <- log1p_zero. now apply log1p_monotone.
  - rewrite FloatOrder.eqb_leb in Hy. apply andb_true_iff in Hy as [Hy0 _].
    pose proof (FloatOrder.leb_trans _ _ _ Hy0 H0) as Hyx.
    rewrite (FloatOrder.ltb_not_leb _ _ Hlt) in Hyx. discriminate.
  - now apply log1p_monotone.
Qed.

Lemma compute_metric_compress (w : CandidateWork.t) :
  _compute_metric w = (compress (citation_count w), compress (altmetric_count w)).
Proof. reflexivity. Qed.

(** C7: the citation component is [log1p] of the citation count, and
    exactly 0.0 when the count is zero or absent; it is monotone in the
    count (counts are non-negative). The altmetric component likewise. *)
Theorem compute_metric_log_compression (w1 w2 w : CandidateWork.t) :
  (0 <=? citation_count w1) = true ->
  (citation_count w1 <? citation_count w2) = true ->
  (fst (_compute_metric w1) <=? fst (_compute_metric w2)) = true
  /\ (truthy_float (citation_count w) = true ->
      fst (_compute_metric w) = log1p (citation_count w))
  /\ ((citation_count w =? 0) = true -> fst (_compute_metric w) = 0)
  /\ (CandidateWork.metrics w !! "cited_by"%string = None ->
      CandidateWork.metrics w !! "is-referenced-by"%string = None ->
      fst (_compute_metric w) = 0)
  /\ (truthy_float (altmetric_count w) = true ->
      snd (_compute_metric w) = log1p (altmetric_count w))
  /\ ((altmetric_count w =? 0) = true -> snd (_compute_metric w) = 0)
  /\ (CandidateWork.metrics w !! "altmetric"%string = None ->
      snd (_compute_metric w) = 0)
  /\ ((0 <=? altmetric_count w1) = true ->
      (altmetric_count w1 <? altmetric_count w2) = true ->
      (snd (_compute_metric w1) <=? snd (_compute_metric w2)) = true).
Proof using log1p_zero log1p_monotone.
  intros H0 Hlt. rewrite !compute_metric_compress. cbn [fst snd].
  unfold compress at 3 4 5 6 7 8.
  split; [now apply compress_monotone|].
  split; [now intros ->|].
  split; [unfold truthy_float; now intros ->|].
  split.
  { intros Hc Hr. unfold citation_count. rewrite Hc, Hr. reflexivity. }
  split; [now intros ->|].
  split; [unfold truthy_float; now intros ->|].
  split.
  { intros Ha. unfold altmetric_count. rewrite Ha. reflexivity. }
  apply compress_monotone.
Qed.

End LogCompression.

End Ranker.

(** C5: without a publication date the recency component is 0; otherwise,
    with the default boundaries and the age in whole days (not below 0),
    it is 1.0 up to 30 days, 0.7 up to 60, 0.4 up to 180 and 0.1 beyond.
    Exactly 30 days give 1.0 and exactly 31 days give 0.7. *)
Theorem compute_recency_staircase (now : Z) (published : datetime)
    (settings : Settings) :
  default 30%Z (Scoring.decay_days (scoring settings) !! "fast"%string) = 30%Z ->
  default 60%Z (Scoring.decay_days (scoring settings) !! "medium"%string) = 60%Z ->
  default 180%Z (Scoring.decay_days (scoring settings) !! "slow"%string) = 180%Z ->
  _compute_recency now None settings = 0
  /\ delta_days now published
     = Z.max ((now - utc_instant published) / microseconds_per_day) 0
  /\ ((delta_days now published <= 30)%Z ->
      _compute_recency now (Some published) settings = 1)
  /\ ((30 < delta_days now published <= 60)%Z ->
      _compute_recency now (Some published) settings = 0.7)
  /\ ((60 < delta_days now published <= 180)%Z ->
      _compute_recency now (Some published) settings = 0.4)
  /\ ((180 < delta_days now published)%Z ->
      _compute_recency now (Some published) settings = 0.1)
  /\ ((now - utc_instant published = 30 * microseconds_per_day)%Z ->
      _compute_recency now (Some published) settings = 1)
  /\ ((now - utc_instant published = 31 * microseconds_per_day)%Z ->
      _compute_recency now (Some published) settings = 0.7).
Proof.
  intros Hfast Hmedium Hslow.
  assert (H1 : (delta_days now published <= 30)%Z ->
               _compute_recency now (Some published) settings = 1).
  { intros H. unfold _compute_recency. rewrite Hfast.
    destruct (Z.leb_spec (delta_days now published) 30); [reflexivity | lia]. }
  assert (H2 : (30 < delta_days now published <= 60)%Z ->
               _compute_recency now (Some published) settings = 0.7).
  { intros H. unfold _compute_recency. rewrite Hfast, Hmedium.
    destruct (Z.leb_spec (delta_days now published) 30); [lia|].
    destruct (Z.leb_spec (delta_days now published) 60); [reflexivity | lia]. }
  split; [reflexivity|].
  split; [apply delta_days_unfold|].
  split; [exact H1|]. split; [exact H2|].
  split.
  { intros H. unfold _compute_recency. rewrite Hfast, Hmedium, Hslow.
    destruct (Z.leb_spec (delta_days now published) 30); [lia|].
    destruct (Z.leb_spec (delta_days now published) 60); [lia|].
    destruct (Z.leb_spec (delta_days now published) 180); [reflexivity | lia]. }
  split.
  { intros H. unfold _compute_recency. rewrite Hfast, Hmedium, Hslow.
    destruct (Z.leb_spec (delta_days now published) 30); [lia|].
    destruct (Z.leb_spec (delta_days now published) 60); [lia|].
    destruct (Z.leb_spec (delta_days now published) 180); [lia | reflexivity]. }
  split.
  - intros H. apply H1. rewrite delta_days_unfold, H.
    rewrite Z.div_mul by (unfold microseconds_per_day; lia). lia.
  - intros H. apply H2. rewrite delta_days_unfold, H.
    rewrite Z.div_mul by (unfold microseconds_per_day; lia). lia.
Qed.

(** *** A concrete ranker *)

(** Settings with similarity-dominated weights, the thresholds 0.8 and 0.5
    and no overrides of the decay boundaries. *)
Definition demo_settings : Settings :=
  mk_settings
    (Scoring.mk (Weights.mk 0.6 0.2 0.05 0.05 None 0.05 0.05)
       (Thresholds.mk 0.8 0.5) ∅ ["Ada Lovelace"%string] []).

(** Stand-ins for the libraries: texts are their own vectors, every query
    has nearest-neighbour score 0.5, the compression is the identity
    (which maps 0 to 0 and is monotone), and a list with a NaN key is left
    as it is. *)
Definition demo_rank (clock : nat -> Z) (candidates : list CandidateWork.t)
    : list RankedWork.t :=
  rank (fun x => x) string (fun text => text) (fun _ => [0.5]) demo_settings ∅
    (fun _ => []) clock candidates.

Definition demo_scored (clock : nat -> Z) (candidates : list CandidateWork.t)
    : list RankedWork.t :=
  scored (fun x => x) string (fun text => text) (fun _ => [0.5]) demo_settings ∅
    clock candidates.

(** A work published at the epoch, cited 12 times. *)
Definition work_cited : CandidateWork.t :=
  CandidateWork.mk "crossref" "cr-12" "Sparse attention" None
    ["Ada Lovelace"%string] None None (Some (mk_datetime 0 None)) None
    {[ "cited_by"%string := 12 ]} ∅.

(** The same kind of work without metrics. *)
Definition work_uncited : CandidateWork.t :=
  CandidateWork.mk "arxiv" "ax-3" "Dense retrieval" None [] None None
    (Some (mk_datetime 0 None)) None ∅ ∅.

Example demo_rank_order :
  map (fun r => (RankedWork.identifier r, RankedWork.label r))
    (demo_rank (fun _ => 0%Z) [work_uncited; work_cited])
  = [("cr-12"%string, "must_read"%string); ("ax-3"%string, "consider"%string)].
Proof. vm_compute. reflexivity. Qed.


(** A journal table whose row for Nature holds NaN (an [sjr] cell reading
    [nan] parses to it), a work in that journal, and a clock that moves by
    one microsecond per row and passes the end of day 30 after the epoch
    between rows 0 and 1. *)
Definition nan_table : gmap string float := {[ "nature"%string := nan ]}.

Definition work_in_nature : CandidateWork.t :=
  CandidateWork.mk "crossref" "cr-9" "Cell atlas" None [] None None
    (Some (mk_datetime 0 None)) (Some "Nature"%string) ∅ ∅.

Definition tick (i : nat) : Z :=
  31 * microseconds_per_day - 1 + Z.of_nat i.

Example nan_score_reached :
  map (fun r => is_nan (RankedWork.score r))
    (scored (fun x => x) string (fun text => text) (fun _ => [0.5])
       demo_settings nan_table (fun _ => 0%Z) [work_in_nature; work_uncited])
  = [true; false].
Proof. vm_compute. reflexivity. Qed.

Example moving_clock_recency :
  map RankedWork.recency_score (demo_scored tick [work_cited; work_uncited])
  = [1; 0.7]
  /\ map RankedWork.recency_score (demo_scored tick [work_uncited; work_cited])
     = [1; 0.7].
Proof. split; vm_compute; reflexivity. Qed.



Lemma rank_label_bands_witness :
  Forall (fun r => RankedWork.label r
                   = label_for (Scoring.thresholds (scoring demo_settings))
                       (RankedWork.score r))
    (demo_rank (fun _ => 0%Z) [work_uncited; work_cited])
  /\ ((0.5 <=? 0.81) = true ->
      (label_level (label_for (Thresholds.mk 0.8 0.5) 0.5)
       <= label_level (label_for (Thresholds.mk 0.8 0.5) 0.81))%nat)
  /\ (label_for (Thresholds.mk 0.8 0.5) 0.5 = "must_read"%string
      <-> (0.8 <=? 0.5) = true)
  /\ (label_for (Thresholds.mk 0.8 0.5) 0.5 = "consider"%string
      <-> (0.5 <=? 0.5) = true /\ (0.8 <=? 0.5) = false)
  /\ (label_for (Thresholds.mk 0.8 0.5) 0.5 = "ignore"%string
      <-> (0.5 <=? 0.5) = false)
  /\ label_for (Thresholds.mk 0.8 0.5) 0.81 = "must_read"%string
  /\ label_for (Thresholds.mk 0.8 0.5) 0.5 = "consider"%string
  /\ label_for (Thresholds.mk 0.8 0.5) 0.49999 = "ignore"%string.
Proof.
  apply (rank_label_bands (fun x => x) string (fun text => text)
           (fun _ => [0.5]) demo_settings ∅ (fun _ => []) (fun _ => 0%Z)
           [work_uncited; work_cited] (Thresholds.mk 0.8 0.5) 0.5 0.81).
  reflexivity.
Defined.

Lemma compute_recency_staircase_witness :
  _compute_recency (30 * microseconds_per_day) None demo_settings = 0
  /\ _compute_recency (30 * microseconds_per_day)
       (Some (mk_datetime 0 None)) demo_settings = 1
  /\ _compute_recency (31 * microseconds_per_day)
       (Some (mk_datetime 0 None)) demo_settings = 0.7.
Proof.
  destruct (compute_recency_staircase (30 * microseconds_per_day)
              (mk_datetime 0 None) demo_settings eq_refl eq_refl eq_refl)
    as (Hnone & _ & _ & _ & _ & _ & H30 & _).
  destruct (compute_recency_staircase (31 * microseconds_per_day)
              (mk_datetime 0 None) demo_settings eq_refl eq_refl eq_refl)
    as (_ & _ & _ & _ & _ & _ & _ & H31).
  split; [exact Hnone|]. split; [apply H30 | apply H31]; reflexivity.
Defined.

Lemma compute_metric_log_compression_witness :
  (fst (_compute_metric (fun x => x) work_uncited)
   <=? fst (_compute_metric (fun x => x) work_cited)) = true
  /\ fst (_compute_metric (fun x => x) work_uncited) = 0
  /\ fst (_compute_metric (fun x => x) work_cited) = 12.
Proof.
  destruct (compute_metric_log_compression (fun x => x) eq_refl
              (fun x y _ H => H) work_uncited work_cited work_uncited
              eq_refl eq_refl)
    as (Hmono & _ & Hzero & _).
  destruct (compute_metric_log_compression (fun x => x) eq_refl
              (fun x y _ H => H) work_uncited work_cited work_cited
              eq_refl eq_refl)
    as (_ & Hlog & _).
  split; [exact Hmono|]. split; [apply Hzero | apply Hlog]; reflexivity.
Defined.

End ScoreRank.

(** ** Further properties of the dedupe engine *)

Module DedupeFacts.

Import Dedupe.
Open Scope float_scope.

Section Facts.

Variable token_set_ratio : string -> string -> float.
Variable self : DedupeEngine.

Local Abbreviation filter := (Dedupe.filter token_set_ratio self).
Local Abbreviation accept_rule := (Dedupe.accept_rule token_set_ratio self).

(** Every survivor passed the acceptance rule against the survivors that
    stand before it. *)
Lemma filter_split_accepted (candidates acc rest : list CandidateWork.t)
    (work : CandidateWork.t) :
  filter candidates = acc ++ work :: rest -> accept_rule acc work.
Proof.
  revert acc rest. induction candidates as [|last pre IH] using rev_ind;
    intros acc rest Hsplit.
  - destruct acc; discriminate.
  - rewrite filter_snoc in Hsplit.
    destruct (filter_from_tracks_deduped token_set_ratio self pre) as [Htr Hded].
    destruct (skipped token_set_ratio self
                (filter_from token_set_ratio self empty_scratch pre) last) eqn:Hs.
    + eapply IH, Hsplit.
    + apply (skipped_false_iff token_set_ratio self _ last Htr) in Hs.
      rewrite Hded in Hs.
      induction rest as [|r rest0 _] using rev_ind.
      * apply app_inj_tail in Hsplit as [<- <-]. exact Hs.
      * rewrite app_comm_cons, app_assoc in Hsplit.
        apply app_inj_tail in Hsplit as [Hpre _]. eapply IH, Hpre.
Qed.

Lemma filter_member_accepted (candidates : list CandidateWork.t)
    (work : CandidateWork.t) :
  work ∈ filter candidates ->
  exists acc rest, filter candidates = acc ++ work :: rest /\ accept_rule acc work.
Proof.
  intros Hin. apply list_elem_of_split in Hin as (acc & rest & Hsplit).
  exists acc, rest. split; [exact Hsplit|]. eapply filter_split_accepted, Hsplit.
Qed.

Lemma accepted_chain_distinct (l : list CandidateWork.t) :
  (forall acc work rest, l = acc ++ work :: rest -> accept_rule acc work) ->
  NoDup (map key_of l)
  /\ NoDup (omap present_doi l)
  /\ Forall (fun work =>
               (key_of work ∉ existing_ids self)
               /\ forall d, present_doi work = Some d -> d ∉ existing_doi self) l.
Proof.
  induction l as [|work l0 IH] using rev_ind; intros Hchain.
  - repeat split; constructor.
  - destruct IH as (Hk & Hd & Hf).
    { intros acc w rest ->. apply (Hchain acc w (rest ++ [work])).
      now rewrite <- app_assoc. }
    destruct (Hchain l0 work [] eq_refl) as (Hdoi & (Hid & Hkeys) & _).
    split; [|split].
    + rewrite map_app. apply NoDup_app. split; [exact Hk|]. split.
      * intros x Hx Hx'. apply list_elem_of_singleton in Hx'. subst x.
        apply list_elem_of_fmap in Hx. destruct Hx as (a & Ha & Hin).
        destruct (Hkeys a Hin) as [Hne _]. congruence.
      * apply NoDup_singleton.
    + rewrite omap_app. apply NoDup_app. split; [exact Hd|]. split.
      * intros x Hx Hx'. cbn in Hx'.
        destruct (present_doi work) as [d|] eqn:Hw; [|inversion Hx'].
        apply list_elem_of_singleton in Hx'. subst x.
        apply list_elem_of_omap in Hx. destruct Hx as (a & Hin & Ha).
        destruct (Hdoi d eq_refl) as [_ Hacc].
        destruct (Hacc a Hin) as [_ Hne]. congruence.
      * cbn. destruct (present_doi work); [apply NoDup_singleton | constructor].
    + apply Forall_app. split; [exact Hf|]. constructor; [|constructor].
      split; [exact Hid|]. intros d Hd'. now destruct (Hdoi d Hd').
Qed.

(** X1: among the survivors of [filter] no two have the same normalized
    identifier and no two have the same normalized DOI; none has an
    identifier or a DOI of the library. *)
Theorem filter_survivors_distinct (candidates : list CandidateWork.t) :
  NoDup (map key_of (filter candidates))
  /\ NoDup (omap present_doi (filter candidates))
  /\ Forall (fun work =>
               (key_of work ∉ existing_ids self)
               /\ forall d, present_doi work = Some d -> d ∉ existing_doi self)
       (filter candidates).
Proof.
  apply accepted_chain_distinct. intros acc work rest Hsplit.
  eapply filter_split_accepted, Hsplit.
Qed.

(** X2: no survivor is a fuzzy duplicate of a library title, nor of a
    survivor that stands before it: against every such non-empty title its
    score stays below the threshold test [threshold <= score / 100]. *)
Theorem filter_survivors_not_fuzzy_duplicates
    (candidates acc rest : list CandidateWork.t) (work : CandidateWork.t)
    (title : string) :
  filter candidates = acc ++ work :: rest ->
  title ∈ existing_titles self ++ map title_of acc ->
  title <> EmptyString ->
  (title_threshold self <=? token_set_ratio (title_of work) title / 100) = false.
Proof.
  intros Hsplit Hin Hne.
  destruct (filter_split_accepted _ _ _ _ Hsplit) as (_ & _ & Hclear).
  now apply Hclear.
Qed.

End Facts.

(** *** The engine built from the library *)

Lemma load_item_threshold (e : DedupeEngine) (item : ZoteroItem.t) :
  title_threshold (load_item e item) = title_threshold e.
Proof.
  unfold load_item.
  destruct (PyStr.truthy_opt (ZoteroItem.doi item)),
    (PyStr.truthy_opt (ZoteroItem.url item)); reflexivity.
Qed.

Lemma load_item_titles (e : DedupeEngine) (item : ZoteroItem.t) :
  existing_titles (load_item e item)
  = existing_titles e ++ [_normalize_title (ZoteroItem.title item)].
Proof.
  unfold load_item.
  destruct (PyStr.truthy_opt (ZoteroItem.doi item)),
    (PyStr.truthy_opt (ZoteroItem.url item)); reflexivity.
Qed.

(** The normalized DOI and URL an item contributes, when it has them. *)
Definition item_doi (item : ZoteroItem.t) : option string :=
  if PyStr.truthy_opt (ZoteroItem.doi item)
  then Some (_normalize_identifier (default EmptyString (ZoteroItem.doi item)))
  else None.

Definition item_url (item : ZoteroItem.t) : option string :=
  if PyStr.truthy_opt (ZoteroItem.url item)
  then Some (_normalize_identifier (default EmptyString (ZoteroItem.url item)))
  else None.

Lemma load_item_doi (e : DedupeEngine) (item : ZoteroItem.t) (d : string) :
  d ∈ existing_doi (load_item e item) <-> d ∈ existing_doi e \/ item_doi item = Some d.
Proof.
  unfold load_item, item_doi.
  destruct (PyStr.truthy_opt (ZoteroItem.doi item)),
    (PyStr.truthy_opt (ZoteroItem.url item)); cbn.
  - rewrite elem_of_union, elem_of_singleton. split.
    + intros [H|H]; [right; now rewrite H | now left].
    + intros [H|H]; [now right | left; now injection H].
  - rewrite elem_of_union, elem_of_singleton. split.
    + intros [H|H]; [right; now rewrite H | now left].
    + intros [H|H]; [now right | left; now injection H].
  - split; [auto | intros [H|H]; [exact H | discriminate]].
  - split; [auto | intros [H|H]; [exact H | discriminate]].
Qed.

Lemma load_item_ids (e : DedupeEngine) (item : ZoteroItem.t) (u : string) :
  u ∈ existing_ids (load_item e item) <-> u ∈ existing_ids e \/ item_url item = Some u.
Proof.
  unfold load_item, item_url.
  destruct (PyStr.truthy_opt (ZoteroItem.doi item)),
    (PyStr.truthy_opt (ZoteroItem.url item)); cbn.
  - rewrite elem_of_union, elem_of_singleton. split.
    + intros [H|H]; [right; now rewrite H | now left].
    + intros [H|H]; [now right | left; now injection H].
  - split; [auto | intros [H|H]; [exact H | discriminate]].
  - rewrite elem_of_union, elem_of_singleton. split.
    + intros [H|H]; [right; now rewrite H | now left].
    + intros [H|H]; [now right | left; now injection H].
  - split; [auto | intros [H|H]; [exact H | discriminate]].
Qed.

Lemma load_items_contents (items : list ZoteroItem.t) (e : DedupeEngine) :
  title_threshold (fold_left load_item items e) = title_threshold e
  /\ existing_titles (fold_left load_item items e)
     = existing_titles e ++ map (fun item => _normalize_title (ZoteroItem.title item)) items
  /\ (forall d, d ∈ existing_doi (fold_left load_item items e)
                <-> d ∈ existing_doi e \/ exists item, item ∈ items /\ item_doi item = Some d)
  /\ (forall u, u ∈ existing_ids (fold_left load_item items e)
                <-> u ∈ existing_ids e \/ exists item, item ∈ items /\ item_url item = Some u).
Proof.
  revert e. induction items as [|item rest IH]; intros e; cbn [fold_left].
  - split; [reflexivity|]. split; [now rewrite app_nil_r|].
    split; intros x; (split; [auto | intros [H|(i & Hi & _)]; [exact H | inversion Hi]]).
  - destruct (IH (load_item e item)) as (Hthr & Htitles & Hdoi & Hids).
    split; [now rewrite Hthr, load_item_threshold|].
    split; [now rewrite Htitles, load_item_titles, <- app_assoc|].
    split; intros x.
    + rewrite Hdoi, load_item_doi. split.
      * intros [[H|H]|(i & Hi & Hx)]; auto.
        -- right. exists item. split; [apply elem_of_cons; now left | exact H].
        -- right. exists i. split; [apply elem_of_cons; now right | exact Hx].
      * intros [H|(i & Hi & Hx)]; auto.
        apply elem_of_cons in Hi as [->|Hi]; [auto | right; eauto].
    + rewrite Hids, load_item_ids. split.
      * intros [[H|H]|(i & Hi & Hx)]; auto.
        -- right. exists item. split; [apply elem_of_cons; now left | exact H].
        -- right. exists i. split; [apply elem_of_cons; now right | exact Hx].
      * intros [H|(i & Hi & Hx)]; auto.
        apply elem_of_cons in Hi as [->|Hi]; [auto | right; eauto].
Qed.

(** X3: the engine built from the library keeps the given threshold, holds
    the normalized titles of all items in storage order, and its DOI and
    identifier sets are exactly the normalized non-empty DOIs and URLs of
    the items. *)
Theorem new_engine_contents (items : list ZoteroItem.t) (threshold : float) :
  title_threshold (new_engine items threshold) = threshold
  /\ existing_titles (new_engine items threshold)
     = map (fun item => _normalize_title (ZoteroItem.title item)) items
  /\ (forall d, d ∈ existing_doi (new_engine items threshold)
                <-> exists item, item ∈ items /\ item_doi item = Some d)
  /\ (forall u, u ∈ existing_ids (new_engine items threshold)
                <-> exists item, item ∈ items /\ item_url item = Some u).
Proof.
  unfold new_engine.
  destruct (load_items_contents items (mk_engine threshold ∅ ∅ []))
    as (Hthr & Htitles & Hdoi & Hids).
  split; [exact Hthr|]. split; [exact Htitles|].
  split; intros x; [rewrite Hdoi | rewrite Hids]; cbn;
    (split; [intros [H|H]; [now apply not_elem_of_empty in H | exact H] | auto]).
Qed.

(** X4: a candidate whose normalized DOI is the normalized DOI of a library
    item, or whose normalized identifier is the normalized URL of a library
    item, never survives [filter], whatever the batch. *)
Theorem filter_rejects_library_items
    (token_set_ratio : string -> string -> float)
    (items : list ZoteroItem.t) (threshold : float)
    (candidates : list CandidateWork.t) (item : ZoteroItem.t)
    (work : CandidateWork.t) :
  item ∈ items ->
  (exists d, item_doi item = Some d /\ present_doi work = Some d)
  \/ item_url item = Some (key_of work) ->
  work ∉ Dedupe.filter token_set_ratio (new_engine items threshold) candidates.
Proof.
  intros Hitem Hmatch Hin.
  destruct (load_items_contents items (mk_engine threshold ∅ ∅ []))
    as (_ & _ & Hdoi & Hids).
  fold (new_engine items threshold) in Hdoi, Hids.
  destruct (accepted_chain_distinct token_set_ratio (new_engine items threshold)
              (Dedupe.filter token_set_ratio (new_engine items threshold) candidates))
    as (_ & _ & Hknown).
  { intros acc w rest Hsplit. eapply filter_split_accepted, Hsplit. }
  rewrite Forall_forall in Hknown. destruct (Hknown work Hin) as [Hid Hd].
  destruct Hmatch as [(d & Hi & Hw)|Hu].
  - apply (Hd d Hw), Hdoi. right. eauto.
  - apply Hid, Hids. right. eauto.
Qed.

(** A library item and a candidate that shares its DOI up to case. *)
Definition library_item : ZoteroItem.t :=
  ZoteroItem.mk "K1" 3 "Protein folding" None [] [] [] None
    (Some "10.1000/XYZ") (Some "https://example.org/p1") ∅.

Lemma filter_rejects_library_items_witness :
  work_fold ∉ Dedupe.filter exact_ratio (new_engine [library_item] 0.9)
                [work_gnn; work_fold].
Proof.
  apply (filter_rejects_library_items exact_ratio [library_item] 0.9
           [work_gnn; work_fold] library_item work_fold).
  - apply list_elem_of_singleton. reflexivity.
  - left. exists "10.1000/xyz"%string. split; vm_compute; reflexivity.
Defined.

(** A third work, unrelated to the other two. *)
Definition work_rna : CandidateWork.t :=
  CandidateWork.mk "biorxiv" "bx-9" "RNA velocity" None [] None None None None ∅ ∅.

Lemma filter_not_fuzzy_duplicates_witness :
  (title_threshold fresh_engine
   <=? exact_ratio (title_of work_rna) "graph neural networks" / 100) = false.
Proof.
  apply (filter_survivors_not_fuzzy_duplicates exact_ratio fresh_engine
           [work_gnn; work_rna] [work_gnn] [] work_rna "graph neural networks").
  - vm_compute. reflexivity.
  - assert (Hl : existing_titles fresh_engine ++ map title_of [work_gnn]
                 = ["graph neural networks"%string])
      by (vm_compute; reflexivity).
    rewrite Hl. apply list_elem_of_singleton. reflexivity.
  - discriminate.
Defined.

End DedupeFacts.

(** ** Properties of the normalizers ([dedupe.py]) *)

Module NormalizeFacts.

Import PyStr.

Lemma lower_char_idem (c : ascii) : lower_char (lower_char c) = lower_char c.
Proof. destruct c as [[] [] [] [] [] [] [] []]; reflexivity. Qed.

Lemma is_space_lower_char (c : ascii) : is_space (lower_char c) = is_space c.
Proof. destruct c as [[] [] [] [] [] [] [] []]; reflexivity. Qed.

Lemma lower_idem (s : string) : lower (lower s) = lower s.
Proof. induction s as [|c s IH]; cbn; [reflexivity|]. now rewrite lower_char_idem, IH. Qed.

Lemma lstrip_lower (s : string) : lstrip (lower s) = lower (lstrip s).
Proof.
  induction s as [|c s IH]; [reflexivity|]. cbn [lower lstrip].
  rewrite is_space_lower_char. now destruct (is_space c).
Qed.

Lemma rstrip_lower (s : string) : rstrip (lower s) = lower (rstrip s).
Proof.
  induction s as [|c s IH]; [reflexivity|]. cbn [lower rstrip].
  rewrite IH, is_space_lower_char.
  destruct (rstrip s); cbn [lower]; [now destruct (is_space c) | reflexivity].
Qed.

Lemma strip_lower (s : string) : strip (lower s) = lower (strip s).
Proof. unfold strip. now rewrite lstrip_lower, rstrip_lower. Qed.

Lemma collapse_from_lower (in_run : bool) (s : string) :
  collapse_from in_run (lower s) = lower (collapse_from in_run s).
Proof.
  revert in_run. induction s as [|c s IH]; intros in_run; [reflexivity|].
  cbn [lower collapse_from]. rewrite is_space_lower_char, !IH.
  now destruct (is_space c), in_run.
Qed.

Lemma rstrip_idem (s : string) : rstrip (rstrip s) = rstrip s.
Proof.
  induction s as [|c s IH]; [reflexivity|]. cbn [rstrip].
  destruct (rstrip s) as [|c' r] eqn:Hr.
  - destruct (is_space c) eqn:Hc; [reflexivity|]. cbn. now rewrite Hc.
  - cbn [rstrip]. cbn [rstrip] in IH. now rewrite IH.
Qed.

(** A string that [lstrip] leaves alone: empty, or with a first character
    that is no whitespace. *)
Definition starts_clean (s : string) : Prop := lstrip s = s.

Lemma lstrip_starts_clean (s : string) : starts_clean (lstrip s).
Proof.
  unfold starts_clean. induction s as [|c s IH]; [reflexivity|]. cbn [lstrip].
  destruct (is_space c) eqn:Hc; [exact IH|]. cbn. now rewrite Hc.
Qed.

Lemma length_lstrip (s : string) : (String.length (lstrip s) <= String.length s)%nat.
Proof.
  induction s as [|c s IH]; cbn; [lia|]. destruct (is_space c); cbn; lia.
Qed.

Lemma rstrip_starts_clean (s : string) : starts_clean s -> starts_clean (rstrip s).
Proof.
  unfold starts_clean. destruct s as [|c s]; [reflexivity|]. cbn [lstrip].
  destruct (is_space c) eqn:Hc.
  - intros H. pose proof (length_lstrip s) as Hl. rewrite H in Hl. cbn in Hl. lia.
  - intros _. cbn [rstrip].
    destruct (rstrip s); rewrite ?Hc; cbn; now rewrite Hc.
Qed.

Lemma strip_idem (s : string) : strip (strip s) = strip s.
Proof.
  unfold strip.
  rewrite (rstrip_starts_clean _ (lstrip_starts_clean s)). apply rstrip_idem.
Qed.

Lemma length_collapse_from (in_run : bool) (s : string) :
  (String.length (collapse_from in_run s) <= String.length s)%nat.
Proof.
  revert in_run. induction s as [|c s IH]; intros in_run; cbn; [lia|].
  destruct (is_space c), in_run; cbn;
    try (pose proof (IH true)); try (pose proof (IH false)); lia.
Qed.

Lemma collapse_from_idem (s : string) :
  (forall in_run,
      collapse_from false (collapse_from in_run s) = collapse_from in_run s)
  /\ collapse_from true (collapse_from true s) = collapse_from true s.
Proof.
  induction s as [|c s [IH1 IH2]]; [split; [intros []|]; reflexivity|].
  split.
  - intros in_run. cbn [collapse_from]. destruct (is_space c) eqn:Hc.
    + destruct in_run; [apply IH1|]. cbn. now rewrite IH2.
    + cbn [collapse_from]. now rewrite Hc, IH1.
  - cbn [collapse_from]. destruct (is_space c) eqn:Hc; [exact IH2|].
    cbn [collapse_from]. now rewrite Hc, IH1.
Qed.

(** Stripping keeps a whitespace-collapsed string collapsed. *)
Lemma collapse_from_lstrip (s : string) :
  collapse_from false s = s -> collapse_from false (lstrip s) = lstrip s.
Proof.
  destruct s as [|c s]; [reflexivity|]. cbn [collapse_from lstrip].
  destruct (is_space c) eqn:Hc.
  - intros H. injection H as _ H.
    destruct s as [|c' s']; [reflexivity|]. cbn [collapse_from lstrip] in *.
    destruct (is_space c') eqn:Hc'.
    + pose proof (length_collapse_from true s') as Hl. rewrite H in Hl.
      cbn in Hl. lia.
    + cbn [collapse_from]. rewrite Hc'. injection H as H. now rewrite H.
  - intros H. cbn [collapse_from]. now rewrite Hc.
Qed.

Lemma collapse_from_cons (in_run : bool) (c : ascii) (s : string) :
  collapse_from in_run (String c s)
  = if is_space c
    then (if in_run then collapse_from true s
          else String " "%char (collapse_from true s))
    else String c (collapse_from false s).
Proof. reflexivity. Qed.

Lemma collapse_from_rstrip (in_run : bool) (s : string) :
  collapse_from in_run s = s ->
  collapse_from in_run (rstrip s) = rstrip s.
Proof.
  revert in_run. induction s as [|c s IH]; intros in_run; [reflexivity|].
  rewrite collapse_from_cons. cbn [rstrip]. destruct (is_space c) eqn:Hc.
  - destruct in_run.
    + intros H. pose proof (length_collapse_from true s) as Hl. rewrite H in Hl.
      cbn in Hl. lia.
    + intros H. injection H as Hsp H. specialize (IH true H).
      destruct (rstrip s) as [|c' r] eqn:Hr; [reflexivity|].
      rewrite collapse_from_cons, Hc, IH. now rewrite Hsp.
  - intros H. injection H as H. specialize (IH false H).
    destruct (rstrip s) as [|c' r] eqn:Hr.
    + cbn. now rewrite Hc.
    + now rewrite collapse_from_cons, Hc, IH.
Qed.

Lemma collapse_strip_collapse (s : string) :
  collapse_whitespace (strip (collapse_whitespace s)) = strip (collapse_whitespace s).
Proof.
  unfold collapse_whitespace, strip.
  apply collapse_from_rstrip, collapse_from_lstrip.
  apply (proj1 (collapse_from_idem s) false).
Qed.

(** X5: both normalizers are idempotent and ignore letter case: applying
    one to its own result, or to the lowercased input, gives the same
    string. *)
Theorem normalizers_idempotent_case_blind (s : string) :
  Dedupe._normalize_identifier (Dedupe._normalize_identifier s)
  = Dedupe._normalize_identifier s
  /\ Dedupe._normalize_identifier (lower s) = Dedupe._normalize_identifier s
  /\ Dedupe._normalize_title (Dedupe._normalize_title s) = Dedupe._normalize_title s
  /\ Dedupe._normalize_title (lower s) = Dedupe._normalize_title s.
Proof.
  unfold Dedupe._normalize_identifier, Dedupe._normalize_title.
  split; [|split; [|split]].
  - now rewrite strip_lower, strip_idem, !strip_lower, lower_idem.
  - now rewrite lower_idem.
  - pose proof (collapse_strip_collapse s) as H.
    unfold collapse_whitespace in *.
    now rewrite collapse_from_lower, strip_lower, lower_idem, H, strip_idem.
  - unfold collapse_whitespace.
    now rewrite collapse_from_lower, strip_lower, lower_idem.
Qed.

End NormalizeFacts.

(** ** Further properties of the ranker *)

Module ScoreRankFacts.

Import ScoreRank.
Open Scope float_scope.

Lemma float_one_not_zero : (1 : float) <> 0.
Proof.
  intros H. apply (f_equal (fun x => x =? 0)) in H. vm_compute in H. discriminate.
Qed.

Lemma existsb_elem_of {A : Type} (f : A -> bool) (l : list A) :
  existsb f l = true <-> exists x, x ∈ l /\ f x = true.
Proof.
  rewrite existsb_exists. split; intros (x & Hx & Hf); exists x;
    (split; [now apply list_elem_of_In | exact Hf]).
Qed.

(** X6: a whitelist bonus is 1.0 or 0.0, and it is 1.0 exactly when some
    non-empty value equals some whitelist entry up to letter case. *)
Theorem bonus_case_blind_match (values whitelist : list string) :
  (_bonus values whitelist = 1 \/ _bonus values whitelist = 0)
  /\ (_bonus values whitelist = 1
      <-> exists value entry,
            value ∈ values /\ entry ∈ whitelist /\ value <> EmptyString
            /\ PyStr.lower value = PyStr.lower entry).
Proof.
  unfold _bonus.
  destruct (existsb _ values) eqn:He.
  - split; [now left|]. split; [intros _ | reflexivity].
    apply existsb_elem_of in He as (value & Hin & Hf).
    apply andb_true_iff in Hf as [Ht Hm]. apply bool_decide_eq_true in Hm.
    apply elem_of_list_to_set, list_elem_of_fmap in Hm.
    destruct Hm as (entry & Heq & Hentry).
    exists value, entry. repeat split; auto. now destruct value.
  - split; [now right|]. split.
    + intros H. symmetry in H. now apply float_one_not_zero in H.
    + intros (value & entry & Hin & Hentry & Hne & Heq). exfalso.
      assert (Ht : false = true); [|discriminate].
      rewrite <- He. apply existsb_elem_of. exists value. split; [exact Hin|].
      apply andb_true_iff. split; [now destruct value|].
      apply bool_decide_eq_true, elem_of_list_to_set, list_elem_of_fmap.
      now exists entry.
Qed.

(** X7: the journal-quality factor is never below the neutral 1.0; it is
    exactly 1.0 with no resolved value when the venue is missing, empty or
    not in the table; and the resolved value is the table entry of the
    stripped, lowercased venue. *)
Theorem journal_quality_neutral_floor (log1p : float -> float)
    (venue : option string) (metrics : gmap string float) :
  (fst (_journal_quality_score log1p venue metrics) <? 1) = false
  /\ (snd (_journal_quality_score log1p venue metrics) = None ->
      fst (_journal_quality_score log1p venue metrics) = 1)
  /\ (PyStr.truthy_opt venue = false ->
      _journal_quality_score log1p venue metrics = (1, None))
  /\ (PyStr.truthy_opt venue = true ->
      snd (_journal_quality_score log1p venue metrics)
      = metrics !! PyStr.lower (PyStr.strip (default EmptyString venue))).
Proof.
  unfold _journal_quality_score.
  destruct (PyStr.truthy_opt venue) eqn:Hv; cbn [negb].
  - destruct (metrics !! PyStr.lower (PyStr.strip (default EmptyString venue)))
      as [value|] eqn:Hm; cbn [fst snd].
    + repeat split; try discriminate.
      destruct (log1p value <? 1) eqn:Hlt; [reflexivity | exact Hlt].
    + repeat split; reflexivity.
  - repeat split; try reflexivity. discriminate.
Qed.

Lemma delta_days_antitone (now : Z) (earlier later : datetime) :
  (utc_instant earlier <= utc_instant later)%Z ->
  (delta_days now later <= delta_days now earlier)%Z.
Proof.
  intros H. rewrite !delta_days_unfold. apply Z.max_le_compat_r.
  apply Z.div_le_mono; [reflexivity | lia].
Qed.

(** X8: for any table of decay boundaries the recency component never
    favours the older of two works: a work published no earlier than
    another gets at least its recency, a dated work at least that of an
    undated one, and a work dated in the future gets the recency of age 0. *)
Theorem compute_recency_favours_later (now : Z) (settings : Settings)
    (earlier later : datetime) :
  (utc_instant earlier <= utc_instant later)%Z ->
  (_compute_recency now (Some earlier) settings
   <=? _compute_recency now (Some later) settings) = true
  /\ (_compute_recency now None settings
      <=? _compute_recency now (Some later) settings) = true
  /\ ((now <= utc_instant later)%Z -> delta_days now later = 0%Z).
Proof.
  intros H. pose proof (delta_days_antitone now _ _ H) as Hd.
  split; [|split].
  - unfold _compute_recency.
    set (fast := default 30%Z _). set (medium := default 60%Z _).
    set (slow := default 180%Z _).
    destruct (Z.leb_spec (delta_days now earlier) fast),
      (Z.leb_spec (delta_days now earlier) medium),
      (Z.leb_spec (delta_days now earlier) slow),
      (Z.leb_spec (delta_days now later) fast),
      (Z.leb_spec (delta_days now later) medium),
      (Z.leb_spec (delta_days now later) slow);
      try reflexivity; lia.
  - unfold _compute_recency.
    destruct (_ <=? _)%Z; [reflexivity|].
    destruct (_ <=? _)%Z; [reflexivity|].
    destruct (_ <=? _)%Z; reflexivity.
  - intros Hfuture. rewrite delta_days_unfold.
    assert ((now - utc_instant later) / microseconds_per_day <= 0)%Z.
    { apply Z.div_le_upper_bound; [reflexivity | lia]. }
    lia.
Qed.

Lemma compute_recency_favours_later_witness :
  (_compute_recency (40 * microseconds_per_day)
     (Some (mk_datetime 0 None)) demo_settings
   <=? _compute_recency (40 * microseconds_per_day)
         (Some (mk_datetime (20 * microseconds_per_day) (Some 0%Z))) demo_settings)
  = true.
Proof.
  apply (compute_recency_favours_later (40 * microseconds_per_day) demo_settings
           (mk_datetime 0 None)
           (mk_datetime (20 * microseconds_per_day) (Some 0%Z))).
  vm_compute. discriminate.
Defined.

Section Batch.

Variable log1p : float -> float.
Variable vec : Type.
Variable embed : string -> vec.
Variable nearest : vec -> list float.
Variable settings : Settings.
Variable journal_metrics : gmap string float.
Variable nan_swaps : list float -> list nat.

Local Abbreviation rank :=
  (rank log1p vec embed nearest settings journal_metrics nan_swaps).
Local Abbreviation scored := (scored log1p vec embed nearest settings journal_metrics).
Local Abbreviation score_alone :=
  (fun now c =>
     score_candidate log1p settings journal_metrics now c
       (row_distance vec embed nearest c)).

(** X9: [rank] returns one ranked work per candidate (none for an empty
    batch), and with one clock reading the ranked work of a candidate is
    its scoring alone: it does not depend on the rest of the batch. *)
Theorem rank_scores_each_candidate_alone (clock : nat -> Z) (now : Z)
    (candidates : list CandidateWork.t) :
  length (rank clock candidates) = length candidates
  /\ rank clock [] = []
  /\ Permutation (rank (fun _ => now) candidates)
       (map (score_alone now) candidates).
Proof.
  split; [|split].
  - rewrite rank_sorts_scored, list_sort_perm, scored_from.
    rewrite <- (length_map RankedWork.candidate_fields).
    now rewrite candidate_fields_score_from.
  - reflexivity.
  - rewrite rank_sorts_scored, list_sort_perm, scored_from.
    now rewrite score_from_fixed_clock.
Qed.

End Batch.

End ScoreRankFacts.

(** ** Further properties of the similarity index and the profile builder *)

Module FaissFacts.

Import FaissStore.

(** [from_vectors] has three outcomes: a ValueError for an array that is
    not 2-D, a RuntimeError for a 2-D array when faiss is missing, and
    otherwise an index of the array's second dimension holding all its
    rows, with the order 0, 1, ..., N-1. *)
Lemma from_vectors_outcomes (faiss_available : bool) (vectors : ndarray) :
  (ndim vectors <> 2%nat ->
   from_vectors faiss_available vectors
   = Raise (ValueError "Vectors must be a 2D array"))
  /\ (ndim vectors = 2%nat -> faiss_available = false ->
      from_vectors faiss_available vectors
      = Raise (RuntimeError
                 "faiss is required; install faiss-cpu or adjust configuration."))
  /\ (ndim vectors = 2%nat -> faiss_available = true ->
      from_vectors faiss_available vectors
      = Ok (mk_index (shape_at vectors 1)
              (mk_flat (shape_at vectors 1) (shape_at vectors 0) (data vectors)),
            seq 0 (shape_at vectors 0))).
Proof.
  unfold from_vectors, init. split; [|split].
  - intros H. apply Nat.eqb_neq in H. now rewrite H.
  - intros -> ->. reflexivity.
  - intros -> ->. reflexivity.
Qed.

(** X10: an index that [from_vectors] built from at least one vector is
    accepted by [load] and comes back unchanged; the order array has one
    position per stored vector. *)
Theorem load_accepts_built_index (faiss_available : bool) (vectors : ndarray)
    (built : FaissIndex) (order : list nat) :
  from_vectors faiss_available vectors = Ok (built, order) ->
  shape_at vectors 0 <> 0%nat ->
  load faiss_available (index built) = Ok built
  /\ length order = ntotal (index built)
  /\ ntotal (index built) = shape_at vectors 0.
Proof.
  unfold from_vectors, init, load. intros H Hrows.
  destruct (ndim vectors =? 2)%nat; [|discriminate]. cbn [negb] in H.
  destruct faiss_available; [|discriminate]. cbn [negb] in *.
  injection H as <- <-. cbn.
  apply Nat.eqb_neq in Hrows. rewrite Hrows. cbn.
  rewrite length_seq. auto.
Qed.

Lemma load_accepts_built_index_witness :
  load true (mk_flat 2 1 [1%float; 0%float])
  = Ok (mk_index 2 (mk_flat 2 1 [1%float; 0%float]))
  /\ length [0%nat] = ntotal (mk_flat 2 1 [1%float; 0%float])
  /\ ntotal (mk_flat 2 1 [1%float; 0%float])
     = shape_at (mk_ndarray [1%nat; 2%nat] [1%float; 0%float]) 0.
Proof.
  apply (load_accepts_built_index true
           (mk_ndarray [1%nat; 2%nat] [1%float; 0%float])
           (mk_index 2 (mk_flat 2 1 [1%float; 0%float])) [0%nat]).
  - reflexivity.
  - discriminate.
Defined.

(** X11: when storage has items, faiss is installed and the vectorizer
    returns a 2-D array with one row per item, the profile builder returns
    an index holding one vector per item, and [load] accepts that index. *)
Theorem run_builds_loadable_index (encode : list string -> ndarray)
    (items : list ZoteroItem.t) :
  items <> [] ->
  ndim (encode (map ZoteroItem.content_for_embedding items)) = 2%nat ->
  shape_at (encode (map ZoteroItem.content_for_embedding items)) 0 = length items ->
  exists built,
    run true encode items = Ok built
    /\ ntotal (index built) = length items
    /\ load true (index built) = Ok built.
Proof.
  intros Hne Hdim Hrows.
  destruct (from_vectors_outcomes true
              (encode (map ZoteroItem.content_for_embedding items)))
    as (_ & _ & Hok).
  specialize (Hok Hdim eq_refl).
  destruct items as [|item rest]; [congruence|].
  unfold run. rewrite Hok. eexists. split; [reflexivity|].
  split; [exact Hrows|].
  unfold load. cbn [index ntotal negb]. rewrite Hrows. reflexivity.
Qed.

Lemma run_builds_loadable_index_witness :
  exists built,
    run true (fun texts => mk_ndarray [length texts; 2%nat] [1%float; 0%float])
      [DedupeFacts.library_item] = Ok built
    /\ ntotal (index built) = length [DedupeFacts.library_item]
    /\ load true (index built) = Ok built.
Proof.
  apply (run_builds_loadable_index
           (fun texts => mk_ndarray [length texts; 2%nat] [1%float; 0%float])
           [DedupeFacts.library_item]).
  - discriminate.
  - reflexivity.
  - reflexivity.
Defined.

End FaissFacts.

(** ** Post-filters of the watch cycle ([cli.py]) *)

Module Cli.

Import ScoreRank.
Open Scope float_scope.

(** What a modelled function of [cli.py] does: it returns a value, or the
    comparison of a naive with an aware [datetime] raises TypeError. *)
Inductive outcome (A : Type) : Type :=
  | Returned (a : A)
  | TypeError (msg : string).
Arguments Returned {A} a.
Arguments TypeError {A} msg.

Definition naive_vs_aware : string :=
  "can't compare offset-naive and offset-aware datetimes".

(** [work.published and work.published >= cutoff]; [cutoff] carries the
    UTC zone. *)
Definition published_since (cutoff : Z) (work : RankedWork.t) : outcome bool :=
  match RankedWork.published work with
  | None => Returned false
  | Some published =>
      match tzinfo published with
      | None => TypeError naive_vs_aware
      | Some _ => Returned (cutoff <=? utc_instant published)%Z
      end
  end.

(** [[work for work in ranked if ...]] *)
Fixpoint keep_since (cutoff : Z) (ranked : list RankedWork.t)
    : outcome (list RankedWork.t) :=
  match ranked with
  | [] => Returned []
  | work :: rest =>
      match published_since cutoff work with
      | TypeError msg => TypeError msg
      | Returned keep =>
          match keep_since cutoff rest with
          | TypeError msg => TypeError msg
          | Returned kept => Returned (if keep then work :: kept else kept)
          end
      end
  end.

(** [_filter_recent]; [now] is the reading of [datetime.now(timezone.utc)]
    in UTC microseconds. *)
Definition _filter_recent (now : Z) (ranked : list RankedWork.t) (days : Z)
    : outcome (list RankedWork.t) :=
  if (days <=? 0)%Z then Returned ranked
  else keep_since (now - days * microseconds_per_day) ranked.

Definition preprint_sources : gset string :=
  {[ "arxiv"%string; "biorxiv"%string; "medrxiv"%string ]}.

(** [work.source.lower() in preprint_sources] *)
Definition is_preprint (work : RankedWork.t) : bool :=
  bool_decide (PyStr.lower (RankedWork.source work) ∈ preprint_sources).

(** An [int] count as a [float]: exact for every count below 2^53, where
    [a / b] on ints is the float quotient of the converted operands. *)
Definition float_of_nat (n : nat) : float :=
  PrimFloat.of_uint63 (Uint63Axioms.of_Z (Z.of_nat n)).

(** The locals the loop of [_limit_preprints] updates. *)
Record cap_state : Type := mk_cap {
  filtered : list RankedWork.t;
  preprint_count : nat
}.

Definition cap_step (max_ratio : float) (st : cap_state) (work : RankedWork.t)
    : cap_state :=
  let proposed_total := (length (filtered st) + 1)%nat in
  if is_preprint work then
    let proposed_preprints := (preprint_count st + 1)%nat in
    if max_ratio <? float_of_nat proposed_preprints / float_of_nat proposed_total
    then st
    else mk_cap (filtered st ++ [work]) proposed_preprints
  else mk_cap (filtered st ++ [work]) (preprint_count st).

(** [_limit_preprints] *)
Definition _limit_preprints (ranked : list RankedWork.t) (max_ratio : float)
    : list RankedWork.t :=
  match ranked with
  | [] => ranked
  | _ =>
      if max_ratio <=? 0 then ranked
      else filtered (fold_left (cap_step max_ratio) ranked (mk_cap [] 0))
  end.

(** [ranked[:top]] for an [int] that may be negative. *)
Definition slice_to (top : Z) (l : list RankedWork.t) : list RankedWork.t :=
  if (0 <=? top)%Z then take (Z.to_nat top) l
  else take (Z.to_nat (Z.of_nat (length l) + top)) l.

(** The post-filters of [run_watch]: the seven-day cutoff, the preprint cap
    of 0.3 and the cut to the [top] entries. *)
Definition post_filters (now : Z) (ranked : list RankedWork.t) (top : Z)
    : outcome (list RankedWork.t) :=
  match _filter_recent now ranked 7 with
  | TypeError msg => TypeError msg
  | Returned recent =>
      let capped := _limit_preprints recent 0.3 in
      Returned (if negb (top =? 0)%Z && (top <? Z.of_nat (length capped))%Z
                then slice_to top capped else capped)
  end.

(** *** [_filter_recent] *)

(** The test of the comprehension on works whose date carries a zone. *)
Definition dated_since (cutoff : Z) (work : RankedWork.t) : bool :=
  match RankedWork.published work with
  | None => false
  | Some published => (cutoff <=? utc_instant published)%Z
  end.

(** A work with a publication date that carries no zone. *)
Definition naive_dated (work : RankedWork.t) : Prop :=
  exists published,
    RankedWork.published work = Some published /\ tzinfo published = None.

Lemma keep_since_outcome (cutoff : Z) (ranked : list RankedWork.t) :
  match keep_since cutoff ranked with
  | TypeError _ => Exists naive_dated ranked
  | Returned kept =>
      kept = List.filter (dated_since cutoff) ranked
      /\ ~ Exists naive_dated ranked
  end.
Proof.
  induction ranked as [|work rest IH]; cbn [keep_since List.filter].
  - split; [reflexivity|]. intros H. inversion H.
  - unfold published_since.
    destruct (RankedWork.published work) as [published|] eqn:Hp.
    + assert (Hd : dated_since cutoff work = (cutoff <=? utc_instant published)%Z)
        by (unfold dated_since; now rewrite Hp).
      destruct (tzinfo published) as [zone|] eqn:Hz.
      * destruct (keep_since cutoff rest) as [kept|msg].
        -- destruct IH as [-> Hno]. rewrite Hd. split; [reflexivity|].
           intros H. apply Exists_cons in H as [(p & Hp' & Hz')|H]; [|auto].
           congruence.
        -- now apply Exists_cons_tl.
      * apply Exists_cons_hd. now exists published.
    + assert (Hd : dated_since cutoff work = false)
        by (unfold dated_since; now rewrite Hp).
      destruct (keep_since cutoff rest) as [kept|msg].
      * destruct IH as [-> Hno]. rewrite Hd. split; [reflexivity|].
        intros H. apply Exists_cons in H as [(p & Hp' & _)|H]; [|auto].
        congruence.
      * now apply Exists_cons_tl.
Qed.

(** X12: with [days <= 0] [_filter_recent] returns its input. Otherwise it
    raises TypeError exactly when some work has a publication date without
    a zone, and when it returns, the result is the input restricted, in
    order, to the works dated at or after [now - days]; undated works are
    dropped. *)
Theorem filter_recent_outcome (now : Z) (ranked : list RankedWork.t) (days : Z) :
  ((days <= 0)%Z -> _filter_recent now ranked days = Returned ranked)
  /\ ((0 < days)%Z ->
      ((exists msg, _filter_recent now ranked days = TypeError msg)
       <-> Exists naive_dated ranked)
      /\ forall kept,
           _filter_recent now ranked days = Returned kept ->
           kept = List.filter (dated_since (now - days * microseconds_per_day)) ranked
           /\ sublist kept ranked
           /\ Forall (fun work => RankedWork.published work <> None) kept).
Proof.
  unfold _filter_recent. split.
  - intros H. destruct (Z.leb_spec days 0); [reflexivity | lia].
  - intros H. destruct (Z.leb_spec days 0); [lia|].
    pose proof (keep_since_outcome (now - days * microseconds_per_day) ranked) as Hk.
    destruct (keep_since _ ranked) as [kept|msg].
    + destruct Hk as [-> Hno]. split.
      * split; [intros [msg Hm]; discriminate | intros He; contradiction].
      * intros kept [= <-]. split; [reflexivity|]. split.
        -- clear. induction ranked as [|w rest IH]; cbn; [constructor|].
           destruct (dated_since _ w); [now apply sublist_skip | now apply sublist_cons].
        -- apply Forall_forall. intros w Hw. apply list_elem_of_In, filter_In in Hw.
           destruct Hw as [_ Hw]. unfold dated_since in Hw.
           now destruct (RankedWork.published w).
    + split; [split; [auto | eauto] | discriminate].
Qed.

(** *** [_limit_preprints] *)

Definition not_preprint (work : RankedWork.t) : bool := negb (is_preprint work).

(** The first entry of a list is no preprint. *)
Definition leads_with_other (l : list RankedWork.t) : Prop :=
  match l with
  | [] => True
  | work :: _ => is_preprint work = false
  end.

Lemma cap_step_cases (max_ratio : float) (st : cap_state) (work : RankedWork.t) :
  (is_preprint work = true /\ cap_step max_ratio st work = st)
  \/ filtered (cap_step max_ratio st work) = filtered st ++ [work].
Proof.
  unfold cap_step. destruct (is_preprint work); [destruct (_ <? _)|]; auto.
Qed.

Lemma cap_step_sublist (max_ratio : float) (candidates : list RankedWork.t)
    (st : cap_state) :
  exists added,
    filtered (fold_left (cap_step max_ratio) candidates st) = filtered st ++ added
    /\ sublist added candidates
    /\ List.filter not_preprint added = List.filter not_preprint candidates.
Proof.
  revert st. induction candidates as [|work rest IH]; intros st; cbn [fold_left].
  - exists []. rewrite app_nil_r. repeat split; constructor.
  - destruct (IH (cap_step max_ratio st work)) as (added & Heq & Hsub & Hfil).
    destruct (cap_step_cases max_ratio st work) as [[Hp Hst]|Hst].
    + rewrite Hst in *. exists added.
      split; [exact Heq|]. split; [now apply sublist_cons|].
      cbn [List.filter]. unfold not_preprint at 2. now rewrite Hp.
    + rewrite Hst, <- app_assoc in Heq. exists (work :: added).
      split; [exact Heq|]. split; [now apply sublist_skip|].
      cbn [List.filter]. now rewrite Hfil.
Qed.

(** X13: the preprint cap returns a subsequence of its input that still
    contains every work that is no preprint; an empty input, or a cap not
    above 0, is returned unchanged. *)
Theorem limit_preprints_spares_others (ranked : list RankedWork.t)
    (max_ratio : float) :
  sublist (_limit_preprints ranked max_ratio) ranked
  /\ List.filter not_preprint (_limit_preprints ranked max_ratio)
     = List.filter not_preprint ranked
  /\ ((max_ratio <=? 0) = true -> _limit_preprints ranked max_ratio = ranked)
  /\ _limit_preprints [] max_ratio = [].
Proof.
  unfold _limit_preprints.
  destruct ranked as [|work rest]; [repeat split; constructor|].
  destruct (max_ratio <=? 0) eqn:Hz.
  - repeat split; reflexivity.
  - destruct (cap_step_sublist max_ratio (work :: rest) (mk_cap [] 0))
      as (added & Heq & Hsub & Hfil).
    rewrite Heq. cbn [filtered app].
    repeat split; [exact Hsub | exact Hfil | discriminate].
Qed.

Lemma first_ratio_is_one :
  float_of_nat (0 + 1) / float_of_nat (length (@nil RankedWork.t) + 1) = 1.
Proof. vm_compute. reflexivity. Qed.

Lemma cap_step_leads (max_ratio : float) (candidates : list RankedWork.t)
    (st : cap_state) :
  (max_ratio <? 1) = true ->
  (filtered st = [] -> preprint_count st = 0%nat) ->
  leads_with_other (filtered st) ->
  leads_with_other (filtered (fold_left (cap_step max_ratio) candidates st))
  /\ (Forall (fun work => is_preprint work = true) candidates ->
      filtered st = [] ->
      filtered (fold_left (cap_step max_ratio) candidates st) = []).
Proof.
  intros Hcap. revert st.
  induction candidates as [|work rest IH]; intros st Hcount Hlead; cbn [fold_left].
  - split; [exact Hlead | auto].
  - assert (Hstep : (filtered st = [] -> is_preprint work = true ->
                     cap_step max_ratio st work = st)
                    /\ (filtered (cap_step max_ratio st work) = [] ->
                        preprint_count (cap_step max_ratio st work) = 0%nat)
                    /\ leads_with_other (filtered (cap_step max_ratio st work))).
    { unfold cap_step. destruct (is_preprint work) eqn:Hp.
      - destruct (filtered st) as [|x l] eqn:Hf.
        + rewrite (Hcount eq_refl), first_ratio_is_one, Hcap.
          split; [auto|]. split; [intros _; exact (Hcount eq_refl) | now rewrite Hf].
        + destruct (max_ratio <? float_of_nat _ / _).
          * split; [discriminate|]. rewrite Hf.
            split; [discriminate | exact Hlead].
          * cbn [filtered]. split; [discriminate|]. split; [discriminate | exact Hlead].
      - cbn [filtered]. split; [discriminate|].
        destruct (filtered st) as [|x l] eqn:Hf.
        + split; [discriminate | exact Hp].
        + split; [discriminate | exact Hlead]. }
    destruct Hstep as (Hskip & Hcount' & Hlead').
    destruct (IH _ Hcount' Hlead') as [Hl Hall].
    split; [exact Hl|].
    intros Hpre Hempty. apply Forall_cons in Hpre as [Hp Hrest].
    rewrite (Hskip Hempty Hp) in *. now apply Hall.
Qed.

(** X14: with a cap above 0 and below 1 the result of the preprint cap
    never starts with a preprint, and a batch of preprints only comes back
    empty. *)
Theorem limit_preprints_never_leads_with_preprint
    (ranked : list RankedWork.t) (max_ratio : float) :
  (max_ratio <=? 0) = false ->
  (max_ratio <? 1) = true ->
  leads_with_other (_limit_preprints ranked max_ratio)
  /\ (Forall (fun work => is_preprint work = true) ranked ->
      _limit_preprints ranked max_ratio = []).
Proof.
  intros Hpos Hcap. unfold _limit_preprints.
  destruct ranked as [|work rest]; [split; [exact I | reflexivity]|].
  rewrite Hpos.
  destruct (cap_step_leads max_ratio (work :: rest) (mk_cap [] 0) Hcap
              (fun _ => eq_refl) I) as [Hl Hall].
  split; [exact Hl|]. intros Hpre. now apply Hall.
Qed.

(** *** The post-filters together *)

Lemma sublist_strongly_sorted (l1 l2 : list RankedWork.t) :
  sublist l1 l2 -> StronglySorted score_ge l2 -> StronglySorted score_ge l1.
Proof.
  induction 1 as [|x l1 l2 Hsub IH|x l1 l2 Hsub IH]; intros Hs.
  - constructor.
  - apply StronglySorted_inv in Hs as [Hs Hx]. constructor; [now apply IH|].
    rewrite Forall_forall in *. intros y Hy. apply Hx.
    eapply elem_of_sublist; eassumption.
  - apply StronglySorted_inv in Hs as [Hs _]. now apply IH.
Qed.

Lemma slice_to_take (top : Z) (l : list RankedWork.t) :
  exists n, slice_to top l = take n l /\ ((0 < top)%Z -> (Z.of_nat n <= top)%Z).
Proof.
  unfold slice_to. destruct (Z.leb_spec 0 top).
  - exists (Z.to_nat top). split; [reflexivity | lia].
  - eexists. split; [reflexivity | lia].
Qed.

Lemma leads_with_other_take (n : nat) (l : list RankedWork.t) :
  leads_with_other l -> leads_with_other (take n l).
Proof. destruct l, n; cbn; auto. Qed.

Lemma filter_recent_sublist (now : Z) (ranked : list RankedWork.t) (days : Z)
    (kept : list RankedWork.t) :
  _filter_recent now ranked days = Returned kept -> sublist kept ranked.
Proof.
  unfold _filter_recent. destruct (days <=? 0)%Z.
  - now intros [= <-].
  - pose proof (keep_since_outcome (now - days * microseconds_per_day) ranked) as Hk.
    destruct (keep_since _ ranked) as [kept'|msg]; [|discriminate].
    destruct Hk as [-> _]. intros [= <-].
    induction ranked as [|w rest IH]; cbn; [constructor|].
    destruct (dated_since _ w); [now apply sublist_skip | now apply sublist_cons].
Qed.

Lemma limit_preprints_sublist (ranked : list RankedWork.t) (max_ratio : float) :
  sublist (_limit_preprints ranked max_ratio) ranked.
Proof.
  unfold _limit_preprints.
  destruct ranked as [|work rest]; [constructor|].
  destruct (max_ratio <=? 0); [reflexivity|].
  destruct (cap_step_sublist max_ratio (work :: rest) (mk_cap [] 0))
    as (added & Heq & Hsub & _).
  rewrite Heq. exact Hsub.
Qed.

Lemma limit_preprints_leads (ranked : list RankedWork.t) (max_ratio : float) :
  (max_ratio <=? 0) = false ->
  (max_ratio <? 1) = true ->
  leads_with_other (_limit_preprints ranked max_ratio).
Proof.
  intros Hpos Hcap. unfold _limit_preprints.
  destruct ranked as [|work rest]; [exact I|].
  rewrite Hpos.
  now destruct (cap_step_leads max_ratio (work :: rest) (mk_cap [] 0) Hcap
                  (fun _ => eq_refl) I).
Qed.

(** X15: when the post-filters of the watch cycle return, their result is a
    subsequence of the ranked list, so it is still in descending order of
    score; it has at most [top] entries when [top] is positive; and its
    first entry is never a preprint. *)
Theorem post_filters_keep_ranking (now : Z) (ranked out : list RankedWork.t)
    (top : Z) :
  post_filters now ranked top = Returned out ->
  sublist out ranked
  /\ (StronglySorted score_ge ranked -> StronglySorted score_ge out)
  /\ ((0 < top)%Z -> (Z.of_nat (length out) <= top)%Z)
  /\ leads_with_other out.
Proof.
  unfold post_filters. intros H.
  destruct (_filter_recent now ranked 7) as [recent|msg] eqn:Hrecent;
    [|discriminate].
  injection H as <-.
  pose proof (filter_recent_sublist now ranked 7 recent Hrecent) as Hsub1.
  pose proof (limit_preprints_sublist recent 0.3) as Hsub2.
  pose proof (limit_preprints_leads recent 0.3 eq_refl eq_refl) as Hlead.
  set (capped := _limit_preprints recent 0.3) in *.
  assert (Hsub : sublist
            (if negb (top =? 0)%Z && (top <? Z.of_nat (length capped))%Z
             then slice_to top capped else capped) ranked).
  { transitivity capped; [|now transitivity recent].
    destruct (_ && _); [|reflexivity].
    destruct (slice_to_take top capped) as (n & -> & _). apply sublist_take. }
  split; [exact Hsub|]. split; [now apply sublist_strongly_sorted|]. split.
  - intros Htop.
    destruct (Z.eqb_spec top 0) as [Hz|Hnz]; [lia|]. cbn [negb andb].
    destruct (Z.ltb_spec top (Z.of_nat (length capped))) as [Hlt|Hge]; [|lia].
    destruct (slice_to_take top capped) as (k & -> & Hk).
    rewrite length_take. specialize (Hk Htop). lia.
  - destruct (_ && _); [|exact Hlead].
    destruct (slice_to_take top capped) as (n & -> & _).
    now apply leads_with_other_take.
Qed.

(** Three ranked works: a preprint and a journal article of the day of the
    reading, and an older journal article. *)
Definition ranked_sample (source : string) (published_us : Z) (score : float)
    : RankedWork.t :=
  RankedWork.mk source "id" "title" None [] None None
    (Some (mk_datetime published_us (Some 0%Z))) None ∅ ∅
    score 0 0 0 0 0 1 None "consider".

Definition watch_sample : list RankedWork.t :=
  [ ranked_sample "arXiv" (100 * microseconds_per_day) 0.9;
    ranked_sample "crossref" (100 * microseconds_per_day) 0.7;
    ranked_sample "crossref" (50 * microseconds_per_day) 0.6 ].

Example post_filters_sample :
  post_filters (100 * microseconds_per_day) watch_sample 50
  = Returned [ranked_sample "crossref" (100 * microseconds_per_day) 0.7].
Proof. vm_compute. reflexivity. Qed.

Lemma limit_preprints_never_leads_witness :
  leads_with_other (_limit_preprints watch_sample 0.3)
  /\ (Forall (fun work => is_preprint work = true) watch_sample ->
      _limit_preprints watch_sample 0.3 = []).
Proof.
  apply (limit_preprints_never_leads_with_preprint watch_sample 0.3);
    reflexivity.
Defined.

Lemma post_filters_keep_ranking_witness :
  sublist [ranked_sample "crossref" (100 * microseconds_per_day) 0.7] watch_sample
  /\ (StronglySorted score_ge watch_sample ->
      StronglySorted score_ge
        [ranked_sample "crossref" (100 * microseconds_per_day) 0.7])
  /\ ((0 < 50)%Z ->
      (Z.of_nat (length [ranked_sample "crossref" (100 * microseconds_per_day) 0.7])
       <= 50)%Z)
  /\ leads_with_other [ranked_sample "crossref" (100 * microseconds_per_day) 0.7].
Proof.
  apply (post_filters_keep_ranking (100 * microseconds_per_day) watch_sample
           [ranked_sample "crossref" (100 * microseconds_per_day) 0.7] 50).
  vm_compute. reflexivity.
Defined.

End Cli.

(** ** Helpers of [models.py] *)

Module ModelsHelpers.

(** The values of [range(0, n, step)] for a positive [step]. *)
Definition range_starts (n step : nat) : list nat :=
  map (fun k => k * step)%nat (seq 0 ((n + step - 1) / step)).

(** [iter_batches], with the batches it yields as a list. [range] raises
    for a zero step and is empty for a negative one. *)
Definition iter_batches {A : Type} (items : list A) (batch_size : Z)
    : result (list (list A)) :=
  if (batch_size =? 0)%Z then Raise (ValueError "range() arg 3 must not be zero")
  else if (batch_size <? 0)%Z then Ok []
  else
    let size := Z.to_nat batch_size in
    Ok (map (fun i => take size (drop i items))
          (range_starts (length items) size)).

Lemma ceil_div_bounds (n s : nat) :
  (0 < s)%nat ->
  (n <= (n + s - 1) / s * s)%nat
  /\ forall k, (k < (n + s - 1) / s)%nat -> (k * s + 1 <= n)%nat.
Proof.
  intros Hs. pose proof (Nat.div_mod (n + s - 1) s ltac:(lia)) as Hdm.
  pose proof (Nat.mod_upper_bound (n + s - 1) s ltac:(lia)) as Hr.
  split; [nia|]. intros k Hk. nia.
Qed.

Lemma concat_batches {A : Type} (items : list A) (s m : nat) :
  concat (map (fun k => take s (drop (k * s) items)) (seq 0 m)) = take (m * s) items.
Proof.
  induction m as [|m IH]; [reflexivity|].
  rewrite seq_S, map_app, concat_app, IH. cbn [map concat plus].
  rewrite app_nil_r, take_take_drop. f_equal. lia.
Qed.

(** X16: for a positive batch size [iter_batches] cuts the items into
    consecutive batches: concatenated they are the items, none is empty or
    longer than the batch size, and all but the last are full. A zero size
    raises ValueError and a negative size yields no batch. *)
Theorem iter_batches_partition {A : Type} (items : list A) (batch_size : Z) :
  ((0 < batch_size)%Z ->
   exists batches,
     iter_batches items batch_size = Ok batches
     /\ concat batches = items
     /\ Forall (fun batch => (0 < length batch <= Z.to_nat batch_size)%nat) batches
     /\ (forall k batch, batches !! k = Some batch ->
           (S k < length batches)%nat -> length batch = Z.to_nat batch_size))
  /\ (batch_size = 0%Z ->
      iter_batches items batch_size
      = Raise (ValueError "range() arg 3 must not be zero"))
  /\ ((batch_size < 0)%Z -> iter_batches items batch_size = Ok []).
Proof.
  unfold iter_batches. split; [|split].
  - intros Hpos.
    destruct (Z.eqb_spec batch_size 0) as [|_]; [lia|].
    destruct (Z.ltb_spec batch_size 0) as [|_]; [lia|].
    set (s := Z.to_nat batch_size). assert (Hs : (0 < s)%nat) by lia.
    destruct (ceil_div_bounds (length items) s Hs) as [Hcover Hstart].
    eexists. split; [reflexivity|]. unfold range_starts. rewrite map_map.
    set (m := ((length items + s - 1) / s)%nat) in *.
    split; [|split].
    + rewrite concat_batches. now apply take_ge.
    + apply Forall_forall. intros batch Hb.
      apply list_elem_of_fmap in Hb. destruct Hb as (k & -> & Hk).
      apply list_elem_of_In, in_seq in Hk. specialize (Hstart k ltac:(lia)).
      rewrite length_take, length_drop. lia.
    + intros k batch Hk Hlast. rewrite length_map, length_seq in Hlast.
      rewrite list_lookup_fmap in Hk.
      destruct (seq 0 m !! k) as [k'|] eqn:Hk'; [|discriminate].
      apply lookup_seq in Hk' as [-> _]. injection Hk as <-.
      specialize (Hstart (S k) Hlast).
      rewrite length_take, length_drop. cbn [plus]. nia.
  - intros ->. reflexivity.
  - intros Hneg. destruct (Z.eqb_spec batch_size 0) as [|_]; [lia|].
    destruct (Z.ltb_spec batch_size 0) as [_|]; [reflexivity | lia].
Qed.

Example iter_batches_sample :
  iter_batches [1; 2; 3; 4; 5]%nat 2 = Ok [[1; 2]; [3; 4]; [5]]%nat.
Proof. reflexivity. Qed.

(** [c.isdigit()] for an ASCII character. *)
Definition is_digit (c : ascii) : bool :=
  let n := nat_of_ascii c in (48 <=? n)%nat && (n <=? 57)%nat.

(** [part.isdigit()]: non-empty and digits only. *)
Definition isdigit (part : string) : bool :=
  PyStr.truthy part && forallb is_digit (list_ascii_of_string part).

(** [int(part)] for a string of digits. *)
Definition int_of_digits (part : string) : Z :=
  fold_left (fun acc c => 10 * acc + Z.of_nat (nat_of_ascii c - 48))%Z
    (list_ascii_of_string part) 0%Z.

(** [value.split("-")] *)
Fixpoint split_dash (value : string) : list string :=
  match value with
  | EmptyString => [EmptyString]
  | String c rest =>
      if Ascii.eqb c "-"%char then EmptyString :: split_dash rest
      else
        match split_dash rest with
        | part :: parts => String c part :: parts
        | [] => [String c EmptyString]
        end
  end.

(** The loop of [_safe_int]. *)
Fixpoint first_int (parts : list string) : option Z :=
  match parts with
  | [] => None
  | part :: rest =>
      if isdigit part then Some (int_of_digits part) else first_int rest
  end.

(** [_safe_int] *)
Definition _safe_int (value : option string) : option Z :=
  if negb (PyStr.truthy_opt value) then None
  else first_int (split_dash (default EmptyString value)).

Lemma split_dash_join (value : string) :
  PyStr.join "-" (split_dash value) = value.
Proof.
  induction value as [|c rest IH]; [reflexivity|]. cbn [split_dash].
  destruct (Ascii.eqb_spec c "-"%char) as [->|Hc].
  - destruct (split_dash rest) as [|part parts] eqn:Hs.
    + cbn in IH. now subst rest.
    + change (PyStr.join "-" (EmptyString :: part :: parts))
        with (String "-" (PyStr.join "-" (part :: parts))).
      now rewrite IH.
  - destruct (split_dash rest) as [|part parts] eqn:Hs.
    + cbn in IH. now subst rest.
    + destruct parts as [|part' parts'].
      * cbn in *. now subst part.
      * change (PyStr.join "-" (String c part :: part' :: parts'))
          with (String c (PyStr.join "-" (part :: part' :: parts'))).
        now rewrite IH.
Qed.

Lemma int_of_digits_from_nonneg (digits : list ascii) (acc : Z) :
  (0 <= acc)%Z ->
  (0 <= fold_left (fun acc c => 10 * acc + Z.of_nat (nat_of_ascii c - 48))%Z
          digits acc)%Z.
Proof.
  revert acc. induction digits as [|c rest IH]; intros acc Hacc; [exact Hacc|].
  cbn [fold_left]. apply IH. lia.
Qed.

Lemma first_int_found (parts : list string) (n : Z) :
  first_int parts = Some n ->
  exists before part after,
    parts = before ++ part :: after
    /\ Forall (fun p => isdigit p = false) before
    /\ isdigit part = true
    /\ n = int_of_digits part.
Proof.
  induction parts as [|part rest IH]; [discriminate|]. cbn [first_int].
  destruct (isdigit part) eqn:Hd.
  - intros [= <-]. exists [], part, rest. repeat split; auto.
  - intros H. destruct (IH H) as (before & p & after & -> & Hb & Hp & Hn).
    exists (part :: before), p, after. repeat split; auto.
Qed.

Lemma first_int_none (parts : list string) :
  first_int parts = None <-> Forall (fun p => isdigit p = false) parts.
Proof.
  induction parts as [|part rest IH]; cbn [first_int].
  - split; [constructor | reflexivity].
  - destruct (isdigit part) eqn:Hd.
    + split; [discriminate|]. intros H. apply Forall_cons in H as [H _]. congruence.
    + rewrite IH. split; [now constructor | now intros H; apply Forall_cons in H as [_ H]].
Qed.

(** X17: [_safe_int] cuts its text at the dashes (the parts joined by
    dashes are the text again) and returns the number of the first part
    that is all digits, which is never negative; it returns None for a
    missing or empty text and when no part is all digits. *)
Theorem safe_int_first_digit_part (value : option string) :
  PyStr.join "-" (split_dash (default EmptyString value)) = default EmptyString value
  /\ (forall n, _safe_int value = Some n ->
        (0 <= n)%Z
        /\ exists before part after,
             split_dash (default EmptyString value) = before ++ part :: after
             /\ Forall (fun p => isdigit p = false) before
             /\ isdigit part = true
             /\ n = int_of_digits part)
  /\ (_safe_int value = None
      <-> PyStr.truthy_opt value = false
          \/ Forall (fun p => isdigit p = false)
               (split_dash (default EmptyString value))).
Proof.
  split; [apply split_dash_join|]. unfold _safe_int. split.
  - intros n H. destruct (PyStr.truthy_opt value); [|discriminate]. cbn [negb] in H.
    destruct (first_int_found _ _ H) as (before & part & after & Hs & Hb & Hp & ->).
    split; [now apply int_of_digits_from_nonneg|]. eauto 10.
  - destruct (PyStr.truthy_opt value); cbn [negb].
    + rewrite first_int_none. split; [auto | intros [H|H]; [discriminate | exact H]].
    + split; auto.
Qed.

Example safe_int_date : _safe_int (Some "2021-05-03"%string) = Some 2021%Z.
Proof. reflexivity. Qed.

Example safe_int_words : _safe_int (Some "May 2021"%string) = None.
Proof. reflexivity. Qed.

End ModelsHelpers.

(** ** The journal table of the ranker ([score_rank.py]) *)

Module JournalMetrics.

Import ScoreRank.
Open Scope float_scope.

Section Load.

(** [float(sjr)]: [None] when it raises ValueError. *)
Variable parse_float : string -> option float.

(** The key under which a row is stored: its title, stripped and
    lowercased. *)
Definition row_key (row : gmap string string) : string :=
  PyStr.lower (PyStr.strip (default EmptyString (row !! "title"%string))).

(** The value a row contributes, when the loop does not skip it. *)
Definition row_value (row : gmap string string) : option float :=
  if negb (PyStr.truthy (row_key row))
     || negb (PyStr.truthy_opt (row !! "sjr"%string))
  then None
  else parse_float (default EmptyString (row !! "sjr"%string)).

(** One round of the loop over the rows of the CSV reader. *)
Definition load_row (metrics : gmap string float) (row : gmap string string)
    : gmap string float :=
  let title := row_key row in
  let sjr := row !! "sjr"%string in
  if negb (PyStr.truthy title) || negb (PyStr.truthy_opt sjr) then metrics
  else
    match parse_float (default EmptyString sjr) with
    | Some value => <[ title := value ]> metrics
    | None => metrics
    end.

(** How reading the file ends: the reader is exhausted, or opening,
    decoding or parsing raises. *)
Inductive reading : Type :=
  | Exhausted
  | Raised.

(** [_load_journal_metrics]; [None] stands for a missing file,
    [Some (rows, ending)] for a file of which the CSV reader yields [rows]
    before reading ends as [ending]. An exception leaves the [try] block
    for [return {}], which drops the rows loaded so far. *)
Definition _load_journal_metrics
    (file : option (list (gmap string string) * reading)) : gmap string float :=
  match file with
  | None => ∅
  | Some (rows, Exhausted) => fold_left load_row rows ∅
  | Some (rows, Raised) => ∅
  end.

Lemma load_row_value (metrics : gmap string float) (row : gmap string string) :
  load_row metrics row
  = match row_value row with
    | Some value => <[ row_key row := value ]> metrics
    | None => metrics
    end.
Proof.
  unfold load_row, row_value.
  destruct (negb (PyStr.truthy (row_key row)) || _); reflexivity.
Qed.

Lemma load_rows_lookup (rows : list (gmap string string))
    (metrics : gmap string float) (key : string) (value : float) :
  fold_left load_row rows metrics !! key = Some value ->
  metrics !! key = Some value
  \/ exists row, row ∈ rows /\ row_key row = key /\ row_value row = Some value.
Proof.
  revert metrics. induction rows as [|row rest IH]; intros metrics; cbn [fold_left].
  - auto.
  - intros H. apply IH in H as [H|(r & Hr & Hk & Hv)].
    + rewrite load_row_value in H.
      destruct (row_value row) as [v|] eqn:Hv; [|auto].
      destruct (decide (row_key row = key)) as [<-|Hne].
      * rewrite lookup_insert_eq in H. injection H as ->.
        right. exists row. split; [apply elem_of_cons; now left | auto].
      * rewrite lookup_insert_ne in H by exact Hne. auto.
    + right. exists r. split; [apply elem_of_cons; now right | auto].
Qed.

(** X18: every entry of the journal table comes from a file that was read
    to its end, from a row whose stripped, lowercased title is its
    non-empty key and whose [sjr] parses to its value; when the file is
    read to its end, a usable last row overrides earlier rows with its
    key; and a missing file, or a read that raises, gives the empty
    table. *)
Theorem load_journal_metrics_entries (rows : list (gmap string string))
    (ending : reading) (row : gmap string string) (key : string)
    (value : float) :
  (_load_journal_metrics (Some (rows, ending)) !! key = Some value ->
   ending = Exhausted
   /\ key <> EmptyString
   /\ exists source, source ∈ rows /\ row_key source = key
                     /\ row_value source = Some value)
  /\ (row_value row = Some value ->
      _load_journal_metrics (Some (rows ++ [row], Exhausted)) !! row_key row
      = Some value)
  /\ _load_journal_metrics None = ∅
  /\ _load_journal_metrics (Some (rows, Raised)) = ∅.
Proof.
  unfold _load_journal_metrics. split; [|split; [|split; reflexivity]].
  - destruct ending; [|intros H; rewrite lookup_empty in H; discriminate].
    intros H. split; [reflexivity|].
    apply load_rows_lookup in H as [H|(source & Hs & Hk & Hv)].
    + rewrite lookup_empty in H. discriminate.
    + split; [|eauto]. intros ->. unfold row_value in Hv. rewrite Hk in Hv.
      discriminate.
  - intros Hv. rewrite fold_left_app. cbn [fold_left].
    rewrite load_row_value, Hv. apply lookup_insert_eq.
Qed.

(** X19: a venue is looked up in the loaded table by its stripped,
    lowercased name: when the file was read to its end and the venue
    agrees in that form with the title of the usable last row, the ranker
    resolves that row's value, and the quality factor is not below 1.0;
    after a read that raises no venue resolves. *)
Theorem journal_quality_resolves_last_row (log1p : float -> float)
    (rows : list (gmap string string)) (row : gmap string string)
    (venue : string) (value : float) :
  row_value row = Some value ->
  PyStr.lower (PyStr.strip venue) = row_key row ->
  snd (_journal_quality_score log1p (Some venue)
         (_load_journal_metrics (Some (rows ++ [row], Exhausted)))) = Some value
  /\ (fst (_journal_quality_score log1p (Some venue)
            (_load_journal_metrics (Some (rows ++ [row], Exhausted)))) <? 1)
     = false
  /\ _journal_quality_score log1p (Some venue)
       (_load_journal_metrics (Some (rows ++ [row], Raised))) = (1, None).
Proof.
  intros Hv Hk.
  assert (Hlast : _load_journal_metrics (Some (rows ++ [row], Exhausted))
                    !! row_key row = Some value).
  { unfold _load_journal_metrics. rewrite fold_left_app. cbn [fold_left].
    rewrite load_row_value, Hv. apply lookup_insert_eq. }
  assert (Ht : PyStr.truthy_opt (Some venue) = true).
  { cbn. destruct venue; [|reflexivity]. cbn in Hk.
    unfold row_value in Hv. rewrite <- Hk in Hv. discriminate. }
  unfold _journal_quality_score. rewrite Ht. cbn [negb].
  replace (default EmptyString (Some venue)) with venue by reflexivity.
  rewrite Hk, Hlast. cbn [fst snd]. split; [reflexivity|]. split.
  - destruct (log1p value <? 1) eqn:Hlt; [reflexivity | exact Hlt].
  - cbn [_load_journal_metrics]. now rewrite lookup_empty.
Qed.

End Load.

(** A reader of the two numerals the sample table uses. *)
Definition sample_float (text : string) : option float :=
  if String.eqb text "2.5" then Some 2.5
  else if String.eqb text "0.4" then Some 0.4
  else None.

Definition sample_rows : list (gmap string string) :=
  [ {[ "title"%string := " Nature Methods "%string; "sjr"%string := "0.4"%string ]};
    {[ "title"%string := "Broken"%string; "sjr"%string := "n/a"%string ]} ].

Definition sample_last_row : gmap string string :=
  {[ "title"%string := "nature methods"%string; "sjr"%string := "2.5"%string ]}.

Lemma journal_quality_resolves_witness :
  snd (_journal_quality_score (fun x => x) (Some "NATURE METHODS "%string)
         (_load_journal_metrics sample_float
            (Some (sample_rows ++ [sample_last_row], Exhausted))))
  = Some 2.5
  /\ (fst (_journal_quality_score (fun x => x) (Some "NATURE METHODS "%string)
            (_load_journal_metrics sample_float
               (Some (sample_rows ++ [sample_last_row], Exhausted)))) <? 1)
     = false
  /\ _journal_quality_score (fun x => x) (Some "NATURE METHODS "%string)
       (_load_journal_metrics sample_float
          (Some (sample_rows ++ [sample_last_row], Raised))) = (1, None).
Proof.
  apply (journal_quality_resolves_last_row sample_float (fun x => x)
           sample_rows sample_last_row "NATURE METHODS " 2.5).
  - vm_compute. reflexivity.
  - vm_compute. reflexivity.
Defined.

End JournalMetrics.

(** ** The watch cycle from dedupe to the cut *)

Module WatchCycle.

Import Dedupe.
Import Cli.
Open Scope float_scope.

Section Cycle.

Variable token_set_ratio : string -> string -> float.
Variable log1p : float -> float.
Variable vec : Type.
Variable embed : string -> vec.
Variable nearest : vec -> list float.
Variable settings : ScoreRank.Settings.
Variable journal_metrics : gmap string float.
Variable nan_swaps : list float -> list nat.

(** The library items in storage. *)
Variable items : list ZoteroItem.t.

(** The steps of [run_watch] between fetching the candidates and writing
    the outputs: dedupe against the library, rank, and the post-filters.
    [clock] gives the readings of the ranking loop, [now] the reading of
    [_filter_recent]. *)
Definition watch_ranked (clock : nat -> Z) (now : Z)
    (candidates : list CandidateWork.t) (top : Z)
    : outcome (list RankedWork.t) :=
  let dedupe := default_engine items in
  let filtered := Dedupe.filter token_set_ratio dedupe candidates in
  let ranked :=
    ScoreRank.rank log1p vec embed nearest settings journal_metrics nan_swaps
      clock filtered in
  post_filters now ranked top.

Lemma post_filters_sublist (now : Z) (ranked out : list RankedWork.t) (top : Z) :
  post_filters now ranked top = Returned out -> sublist out ranked.
Proof.
  unfold post_filters. intros H.
  destruct (_filter_recent now ranked 7) as [recent|msg] eqn:Hrecent;
    [|discriminate].
  injection H as <-.
  transitivity (_limit_preprints recent 0.3);
    [|transitivity recent;
      [apply limit_preprints_sublist | eapply filter_recent_sublist, Hrecent]].
  destruct (_ && _); [|reflexivity].
  destruct (slice_to_take top (_limit_preprints recent 0.3)) as (n & -> & _).
  apply sublist_take.
Qed.

Lemma omap_sublist {A B : Type} (f : A -> option B) (l1 l2 : list A) :
  sublist l1 l2 -> sublist (omap f l1) (omap f l2).
Proof.
  induction 1 as [|x l1 l2 Hsub IH|x l1 l2 Hsub IH]; cbn.
  - constructor.
  - destruct (f x); [now apply sublist_skip | exact IH].
  - destruct (f x); [now apply sublist_cons | exact IH].
Qed.

Lemma ranked_fields_permutation (clock : nat -> Z)
    (filtered : list CandidateWork.t) :
  Permutation
    (map RankedWork.candidate_fields
       (ScoreRank.rank log1p vec embed nearest settings journal_metrics nan_swaps
          clock filtered))
    filtered.
Proof.
  rewrite ScoreRank.rank_sorts_scored, ScoreRank.scored_from.
  rewrite <- (ScoreRank.candidate_fields_score_from log1p vec embed nearest
                settings journal_metrics clock 0 filtered) at 2.
  apply Permutation_map, ScoreRank.list_sort_perm.
Qed.

(** X20: the works the watch cycle reports are fetched candidates, at most
    as many as were fetched; no two of them have the same normalized
    identifier or the same normalized DOI; and none has the normalized URL
    of a library item as its identifier or the normalized DOI of a library
    item as its DOI. *)
Theorem watch_reports_new_distinct_works (clock : nat -> Z) (now : Z)
    (candidates : list CandidateWork.t) (top : Z) (out : list RankedWork.t) :
  watch_ranked clock now candidates top = Returned out ->
  (forall work, work ∈ map RankedWork.candidate_fields out -> work ∈ candidates)
  /\ (length out <= length candidates)%nat
  /\ NoDup (map key_of (map RankedWork.candidate_fields out))
  /\ NoDup (omap present_doi (map RankedWork.candidate_fields out))
  /\ Forall (fun work =>
               forall item, item ∈ items ->
                 DedupeFacts.item_url item <> Some (key_of work)
                 /\ (forall d, present_doi work = Some d ->
                       DedupeFacts.item_doi item <> Some d))
       (map RankedWork.candidate_fields out).
Proof.
  unfold watch_ranked. intros Hout.
  set (engine := default_engine items) in *.
  set (filtered := Dedupe.filter token_set_ratio engine candidates) in *.
  apply post_filters_sublist in Hout.
  pose proof (ranked_fields_permutation clock filtered) as Hperm.
  set (ranked := ScoreRank.rank _ _ _ _ _ _ _ _ _) in *.
  assert (Hfields : sublist (map RankedWork.candidate_fields out)
                      (map RankedWork.candidate_fields ranked))
    by exact (fmap_sublist RankedWork.candidate_fields _ _ Hout).
  assert (Hkept : sublist filtered candidates).
  { unfold filtered. rewrite filter_survivors. apply survivors_sublist. }
  destruct (DedupeFacts.accepted_chain_distinct token_set_ratio engine filtered)
    as (Hkeys & Hdois & Hknown).
  { intros acc w rest Hsplit. eapply DedupeFacts.filter_split_accepted, Hsplit. }
  destruct (DedupeFacts.load_items_contents items (mk_engine 0.9 ∅ ∅ []))
    as (_ & _ & Hdoi & Hids).
  fold (new_engine items 0.9) in Hdoi, Hids. fold (default_engine items) in Hdoi, Hids.
  fold engine in Hdoi, Hids.
  assert (Hin : forall work,
            work ∈ map RankedWork.candidate_fields out -> work ∈ filtered).
  { intros work Hw. rewrite <- Hperm. eapply elem_of_sublist; eassumption. }
  split; [|split; [|split; [|split]]].
  - intros work Hw. eapply elem_of_sublist; [apply Hin, Hw | exact Hkept].
  - apply sublist_length in Hout, Hkept. apply Permutation_length in Hperm.
    rewrite length_map in Hperm. lia.
  - apply (sublist_NoDup _ (map key_of (map RankedWork.candidate_fields ranked)));
      [|exact (fmap_sublist key_of _ _ Hfields)].
    rewrite (Permutation_map key_of Hperm). exact Hkeys.
  - apply (sublist_NoDup _ (omap present_doi (map RankedWork.candidate_fields ranked)));
      [|apply omap_sublist, Hfields].
    rewrite (omap_Permutation present_doi _ _ Hperm). exact Hdois.
  - apply Forall_forall. intros work Hw. apply Hin in Hw.
    rewrite Forall_forall in Hknown. destruct (Hknown work Hw) as [Hid Hd].
    intros item Hitem. split.
    + intros Hu. apply Hid, Hids. right. eauto.
    + intros d Hw' Hi. apply (Hd d Hw'), Hdoi. right. eauto.
Qed.

End Cycle.

(** A library with one item, and a batch of three candidates dated on the
    day of the reading: a new article, the library item under another
    record, and the new article fetched a second time. *)
Definition article (identifier title : string) (doi : option string)
    : CandidateWork.t :=
  CandidateWork.mk "crossref" identifier title None [] doi None
    (Some (mk_datetime (100 * ScoreRank.microseconds_per_day) (Some 0%Z)))
    None ∅ ∅.

Definition fetched : list CandidateWork.t :=
  [ article "cr-1" "Sparse attention" None;
    article "cr-2" "Folding of proteins" (Some "10.1000/xyz");
    article "CR-1" "Sparse attention again" None ].

Definition demo_watch : outcome (list RankedWork.t) :=
  watch_ranked exact_ratio (fun x => x) string (fun text => text)
    (fun _ => [0.5]) ScoreRank.demo_settings ∅ (fun _ => [])
    [DedupeFacts.library_item]
    (fun _ => 100 * ScoreRank.microseconds_per_day)%Z
    (100 * ScoreRank.microseconds_per_day)%Z fetched 10.

Definition demo_reported : list RankedWork.t :=
  match demo_watch with
  | Returned out => out
  | TypeError _ => []
  end.

Example demo_watch_reports :
  map RankedWork.candidate_fields demo_reported
  = [article "cr-1" "Sparse attention" None].
Proof. vm_compute. reflexivity. Qed.

Lemma watch_reports_new_distinct_witness :
  (forall work, work ∈ map RankedWork.candidate_fields demo_reported ->
     work ∈ fetched)
  /\ (length demo_reported <= length fetched)%nat
  /\ NoDup (map key_of (map RankedWork.candidate_fields demo_reported))
  /\ NoDup (omap present_doi (map RankedWork.candidate_fields demo_reported))
  /\ Forall (fun work =>
               forall item, item ∈ [DedupeFacts.library_item] ->
                 DedupeFacts.item_url item <> Some (key_of work)
                 /\ (forall d, present_doi work = Some d ->
                       DedupeFacts.item_doi item <> Some d))
       (map RankedWork.candidate_fields demo_reported).
Proof.
  apply (watch_reports_new_distinct_works exact_ratio (fun x => x) string
           (fun text => text) (fun _ => [0.5]) ScoreRank.demo_settings ∅
           (fun _ => []) [DedupeFacts.library_item]
           (fun _ => 100 * ScoreRank.microseconds_per_day)%Z
           (100 * ScoreRank.microseconds_per_day)%Z fetched 10 demo_reported).
  vm_compute. reflexivity.
Defined.

End WatchCycle.
